(** * SteamDataAnalysis: the Cleaner and the Store Loader

    A shallow embedding of [clean_and_plot.py] (the cleaning heuristic
    [clean_game_data]) and of [csv_to_sqlite.py] (the month-label parser
    [parse_month_year], the schema creation and the CSV import), with the
    properties of the specification proved or refuted on them.

    Conventions.
    - A Python [str] is a [string]; a character is a code point below 256.
    - A float64 is a primitive [float]; [>=] on it is [PrimFloat.leb] with the
      arguments swapped, so a NaN never meets a threshold.
    - A Python [int] is a [Z].
    - A DataFrame is the list of its rows, in index order.
    - [sort_values] puts the [NaT] rows last in the order of the input, as
      pandas does; among rows with the same date pandas leaves the order to
      the sort algorithm, and the model keeps the order of the input. *)

From Stdlib Require Import Floats ZArith Lia Ascii.
From stdpp Require Import gmap strings list pretty sorting.

Local Open Scope Z_scope.

(** ** Python built-ins on strings *)

Module Py.

(** [str.isspace] on one character: the code points below 256 that Python
    treats as whitespace (TAB..CR, FS..US, space, NEL, NBSP). *)
Definition isspace (c : ascii) : bool :=
  let n := nat_of_ascii c in
  ((9 <=? n) && (n <=? 13) || (28 <=? n) && (n <=? 32)
   || (n =? 133) || (n =? 160))%nat.

Definition is_empty (s : string) : bool :=
  match s with EmptyString => true | String _ _ => false end.

(** [s.lstrip()] *)
Fixpoint lstrip (s : string) : string :=
  match s with
  | EmptyString => EmptyString
  | String c s' => if isspace c then lstrip s' else s
  end.

(** [s.rstrip()]: a character is dropped when it is whitespace and all that
    follows it has been dropped. *)
Fixpoint rstrip (s : string) : string :=
  match s with
  | EmptyString => EmptyString
  | String c s' =>
      let r := rstrip s' in
      if is_empty r && isspace c then EmptyString else String c r
  end.

(** [s.strip()] *)
Definition strip (s : string) : string := rstrip (lstrip s).

(** [s.split()] with no separator: the maximal runs of non-whitespace
    characters, in order. [word] is the run being read. *)
Fixpoint split_from (word : string) (s : string) : list string :=
  match s with
  | EmptyString => if is_empty word then [] else [word]
  | String c s' =>
      if isspace c
      then (if is_empty word then split_from EmptyString s'
            else word :: split_from EmptyString s')
      else split_from (word +:+ String c EmptyString) s'
  end.

Definition split (s : string) : list string := split_from EmptyString s.

(** [sub in s] *)
Fixpoint contains (sub s : string) : bool :=
  String.prefix sub s ||
  match s with
  | EmptyString => false
  | String _ s' => contains sub s'
  end.

(** [s.endswith(suffix)] *)
Fixpoint endswith (s suffix : string) : bool :=
  String.eqb s suffix ||
  match s with
  | EmptyString => false
  | String _ s' => endswith s' suffix
  end.

(** [s.lower()] on the letters A..Z (no other code point below 256 lowers
    to an ASCII letter). *)
Definition lower_char (c : ascii) : ascii :=
  let n := nat_of_ascii c in
  if ((65 <=? n) && (n <=? 90))%nat then ascii_of_nat (n + 32) else c.

Fixpoint lower (s : string) : string :=
  match s with
  | EmptyString => EmptyString
  | String c s' => String (lower_char c) (lower s')
  end.

(** No character of [s] is whitespace. *)
Fixpoint no_space (s : string) : bool :=
  match s with
  | EmptyString => true
  | String c s' => negb (isspace c) && no_space s'
  end.

Definition is_digit (c : ascii) : bool :=
  let n := nat_of_ascii c in ((48 <=? n) && (n <=? 57))%nat.

Definition digit_value (c : ascii) : Z := Z.of_nat (nat_of_ascii c) - 48.

(** The digits of an integer literal: one or more decimal digits, single
    underscores allowed between two digits. [prev_digit] tells whether the
    previous character was a digit, [ndigits] counts the digits read. *)
Fixpoint int_digits (s : string) (acc : Z) (prev_digit : bool) (ndigits : nat)
  : option (Z * nat) :=
  match s with
  | EmptyString => if prev_digit then Some (acc, ndigits) else None
  | String c s' =>
      if is_digit c
      then int_digits s' (10 * acc + digit_value c) true (S ndigits)
      else if Ascii.eqb c "_"%char && prev_digit
           then int_digits s' acc false ndigits
           else None
  end.

(** CPython's default limit on the number of digits [int] converts
    ([sys.int_info.default_max_str_digits]); longer literals raise
    [ValueError]. *)
Definition max_str_digits : nat := 4300.

Definition int_unsigned (s : string) : option Z :=
  match int_digits s 0 false 0 with
  | Some (v, n) => if (n <=? max_str_digits)%nat then Some v else None
  | None => None
  end.

(** [int(s)] in base 10; [None] stands for [ValueError]. *)
Definition int (s : string) : option Z :=
  match strip s with
  | String "+"%char r => int_unsigned r
  | String "-"%char r => Z.opp <$> int_unsigned r
  | r => int_unsigned r
  end.

End Py.

(** ** The flat table *)

(** One row of the CSV the scraper writes:
    [appid, game_name, month, avg_players, peak_players]. *)
Record Observation := mkObservation {
  appid : Z;
  game_name : string;
  month : string;
  avg_players : float;
  peak_players : Z
}.

(** A row of [game_data] once the [date] column has been assigned; [None] is
    [NaT]. A [Timestamp] is an integer (any order-preserving encoding). *)
Record Row := mkRow {
  obs :> Observation;
  date : option Z
}.

(** ** [clean_and_plot.py]: [clean_game_data] *)

(** [Series.unique()]: the distinct values in order of first appearance. *)
Fixpoint unique `{EqDecision A} (l : list A) : list A :=
  match l with
  | [] => []
  | x :: l' => x :: filter (λ y, y ≠ x) (unique l')
  end.

(** Order of [sort_values('date')]: ascending, [NaT] last
    ([na_position='last']). *)
Definition date_le (a b : option Z) : bool :=
  match a, b with
  | _, None => true
  | None, Some _ => false
  | Some x, Some y => x <=? y
  end.

(** Two rows in the order of the sort. *)
Definition date_ordered (a b : Row) : Prop :=
  date_le (date a) (date b) = true.

(** Insertion before the first row that does not sort before [r]: rows with
    equal dates keep the order of the input, and so do the [NaT] rows. *)
Fixpoint insert_by_date (r : Row) (l : list Row) : list Row :=
  match l with
  | [] => [r]
  | y :: l' =>
      if date_le (date r) (date y) then r :: y :: l'
      else y :: insert_by_date r l'
  end.

(** [game_data.sort_values('date').reset_index(drop=True)] *)
Definition sort_values (l : list Row) : list Row := foldr insert_by_date [] l.

(** [row['avg_players'] >= min_avg_players] *)
Definition meets (min_avg_players : float) (row : Row) : bool :=
  PrimFloat.leb min_avg_players (avg_players row).

(** The loop of lines 28-35 from row [idx] on, with the counter at
    [consecutive_count]; [Some start] when the loop breaks with
    [meaningful_start = start], [None] when it runs to the end. The loop
    breaks as soon as it assigns [meaningful_start], so the test
    [meaningful_start is None] of line 31 always holds when it is reached. *)
Fixpoint find_meaningful_start (min_avg_players : float)
    (min_consecutive_months : Z) (rows : list Row)
    (idx consecutive_count : Z) : option Z :=
  match rows with
  | [] => None
  | row :: rest =>
      if meets min_avg_players row then
        let consecutive_count := consecutive_count + 1 in
        if min_consecutive_months <=? consecutive_count
        then Some (Z.max 0 (idx - min_consecutive_months + 1))
        else find_meaningful_start min_avg_players min_consecutive_months
               rest (idx + 1) consecutive_count
      else
        find_meaningful_start min_avg_players min_consecutive_months
          rest (idx + 1) 0
  end.

(** [game_data.iloc[start:]]; a negative [start] counts from the end. *)
Definition iloc_from (start : Z) (l : list Row) : list Row :=
  if start <? 0
  then drop (Z.to_nat (Z.max 0 (Z.of_nat (length l) + start))) l
  else drop (Z.to_nat start) l.

(** [df[df['game_name'] == name]] *)
Definition game_rows (name : string) (df : list Observation)
  : list Observation :=
  filter (λ o, game_name o = name) df.

(** The rows of a cleaned frame that carry the name [name]. *)
Definition cleaned_rows (name : string) (cleaned_df : list Row) : list Row :=
  filter (λ r : Row, game_name r = name) cleaned_df.

(** The same observation under another application id. *)
Definition with_appid (f : Z → Z) (o : Observation) : Observation :=
  {| appid := f (appid o); game_name := game_name o; month := month o;
     avg_players := avg_players o; peak_players := peak_players o |}.

Definition row_with_appid (f : Z → Z) (r : Row) : Row :=
  {| obs := with_appid f r; date := date r |}.

Section Cleaner.

(** [pd.to_datetime(label, format='%B %Y', errors='coerce')] on one label:
    the library's parser, [None] is [NaT]. *)
Variable to_datetime : string → option Z.

(** [game_data['date'] = pd.to_datetime(game_data['month'], ...)] *)
Definition assign_date (o : Observation) : Row :=
  {| obs := o; date := to_datetime (month o) |}.

(** Lines 20-22: the game's rows, dated and sorted. *)
Definition sorted_game_data (game_data : list Observation) : list Row :=
  sort_values (assign_date <$> game_data).

(** The body of the per-game loop, lines 18-43: the frame appended to
    [cleaned_games] for the rows [game_data] of one game. *)
Definition clean_one_game (game_data : list Observation)
    (min_avg_players : float) (min_consecutive_months : Z) : list Row :=
  let game_data := sorted_game_data game_data in
  match find_meaningful_start min_avg_players min_consecutive_months
          game_data 0 0 with
  | Some meaningful_start => iloc_from meaningful_start game_data
  | None => game_data
  end.

(** [clean_game_data(df, min_avg_players, min_consecutive_months)]. With no
    game at all the function returns [df] itself, which then has no row
    (lemma [no_game_no_row]). *)
Definition clean_game_data (df : list Observation)
    (min_avg_players : float) (min_consecutive_months : Z) : list Row :=
  let cleaned_games :=
    (λ name, clean_one_game (game_rows name df)
               min_avg_players min_consecutive_months)
      <$> unique (game_name <$> df) in
  match cleaned_games with
  | [] => []
  | _ => concat cleaned_games
  end.

End Cleaner.

(** ** The Cleaner as the specification words it (section 4.2) *)

(** Step 2: the run-length counter after one more observation. *)
Definition counter_step (min_avg_players : float) (count : Z) (r : Row) : Z :=
  if meets min_avg_players r then count + 1 else 0.

(** The counter after the observation at position [i] of [l]: the number of
    consecutive observations meeting the threshold that end at [i]. *)
Definition run_length (min_avg_players : float) (l : list Row) (i : nat) : Z :=
  foldl (counter_step min_avg_players) 0 (take (S i) l).

(** Step 3: the counter reaches [min_consecutive_months] at position [i]: the
    observation there raises it to that length or beyond. *)
Definition reaches (min_avg_players : float) (min_consecutive_months : Z)
    (l : list Row) (i : nat) : bool :=
  match (l !! i : option Row) with
  | Some r =>
      meets min_avg_players r
      && (min_consecutive_months <=? run_length min_avg_players l i)
  | None => false
  end.

(** The first position at which the counter reaches the length. *)
Definition first_reach (min_avg_players : float) (min_consecutive_months : Z)
    (l : list Row) : option nat :=
  List.find (reaches min_avg_players min_consecutive_months l)
    (seq 0 (length l)).

(** Step 5: [l] has [n] consecutive observations that all meet the
    threshold. *)
Definition has_run (min_avg_players : float) (n : nat) (l : list Row) : bool :=
  existsb (λ i, let window := take n (drop i l) in
                forallb (meets min_avg_players) window
                && (length window =? n)%nat)
          (seq 0 (S (length l))).


(** ** [csv_to_sqlite.py]: [parse_month_year] *)

(** The dictionary of lines 51-55. *)
Definition month_mapping : gmap string Z :=
  list_to_map
    [("January", 1); ("February", 2); ("March", 3); ("April", 4);
     ("May", 5); ("June", 6); ("July", 7); ("August", 8);
     ("September", 9); ("October", 10); ("November", 11); ("December", 12)].

(** [parse_month_year(month_str)]. [now_year] and [now_month] are what
    [datetime.now().year] and [datetime.now().month] read at the call. The
    only exception the body can raise on a [str] is the [ValueError] of
    [int], which the bare [except] turns into [(None, None)]. *)
Definition parse_month_year (now_year now_month : Z) (month_str : string)
  : option Z * option Z :=
  if Py.contains "Last 30 Days" month_str then (Some now_year, Some now_month)
  else
    let parts := Py.split (Py.strip month_str) in
    if (2 <=? length parts)%nat then
      match parts with
      | month_name :: year_str :: _ =>
          match Py.int year_str with
          | Some year =>
              let month_num := default 1 (month_mapping !! month_name) in
              (Some year, Some month_num)
          | None => (None, None)
          end
      | _ => (None, None)
      end
    else (None, None).

(** ** The relational store and the process *)

(** A cell of a stored row. *)
Inductive value :=
  | VInt (z : Z)
  | VText (s : string)
  | VReal (x : float)
  | VNull.

(** A column as the schema declares it: its name, its key and null
    constraints, a [DEFAULT CURRENT_TIMESTAMP] and a foreign key [(table,
    column)]. Storage classes are not tracked. *)
Record column := mkColumn {
  col_name : string;
  col_primary_key : bool;
  col_autoincrement : bool;
  col_not_null : bool;
  col_default_now : bool;
  col_references : option (string * string)
}.

Record table := mkTable {
  tbl_columns : list column;
  tbl_rows : list (list value)
}.

Record index := mkIndex {
  idx_table : string;
  idx_column : string
}.

(** A SQLite database: tables, indexes and views by name. *)
Record database := mkDatabase {
  db_tables : gmap string table;
  db_indexes : gmap string index;
  db_views : gset string
}.

Definition empty_database : database :=
  {| db_tables := ∅; db_indexes := ∅; db_views := ∅ |}.

(** A file of the working directory: a CSV with the header
    [appid,game_name,month,avg_players,peak_players] and its rows, or a
    SQLite database. *)
Inductive file :=
  | CsvFile (rows : list Observation)
  | DbFile (db : database).

(** What the scripts see and change: the files, the clock (year, month) and
    the lines printed so far. *)
Record world := mkWorld {
  files : gmap string file;
  clock : Z * Z;
  stdout : list string
}.

Inductive exn :=
  | SystemExit
  | FileNotFoundError
  | ParserError
  | DatabaseError.

(** How a call ends: it returns a value to its caller or raises. *)
Inductive outcome (A : Type) :=
  | Returned (a : A)
  | Raised (e : exn).
Arguments Returned {A} a.
Arguments Raised {A} e.

Definition IO (A : Type) : Type := world → outcome A * world.

Definition ret {A} (a : A) : IO A := λ w, (Returned a, w).

Definition bind {A B} (m : IO A) (k : A → IO B) : IO B :=
  λ w, match m w with
       | (Returned a, w') => k a w'
       | (Raised e, w') => (Raised e, w')
       end.

Declare Scope io_scope.
Delimit Scope io_scope with io.
Notation "'let*' x := m 'in' k" := (bind m (λ x, k))
  (at level 10, x name, m at level 100, k at level 200) : io_scope.
Notation "m >> k" := (bind m (λ _, k))
  (at level 100, k at level 200, right associativity) : io_scope.

Definition raise {A} (e : exn) : IO A := λ w, (Raised e, w).

(** [print(line)] *)
Definition print (line : string) : IO unit :=
  λ w, (Returned (), {| files := files w; clock := clock w;
                        stdout := stdout w ++ [line] |}).

(** [exit()] *)
Definition exit : IO unit := raise SystemExit.

(** [os.path.exists(path)] *)
Definition os_path_exists (path : string) : IO bool :=
  λ w, (Returned (bool_decide (is_Some (files w !! path))), w).

(** [os.listdir('.')] *)
Definition os_listdir : IO (list string) :=
  λ w, (Returned (map_to_list (files w)).*1, w).

(** [pd.read_csv(path)] *)
Definition read_csv (path : string) : IO (list Observation) :=
  λ w, match files w !! path with
       | Some (CsvFile rows) => (Returned rows, w)
       | Some (DbFile _) => (Raised ParserError, w)
       | None => (Raised FileNotFoundError, w)
       end.

(** A statement run and committed on the connection to the database file
    [conn]; the file is created when it does not exist. *)
Definition execute (conn : string) (statement : database → database)
  : IO unit :=
  λ w, match files w !! conn with
       | Some (CsvFile _) => (Raised DatabaseError, w)
       | Some (DbFile db) =>
           (Returned (), {| files := <[conn := DbFile (statement db)]> (files w);
                            clock := clock w; stdout := stdout w |})
       | None =>
           (Returned (),
            {| files := <[conn := DbFile (statement empty_database)]> (files w);
               clock := clock w; stdout := stdout w |})
       end.

(** [CREATE TABLE IF NOT EXISTS name (columns)] *)
Definition create_table_if_not_exists (name : string) (columns : list column)
    (db : database) : database :=
  match db_tables db !! name with
  | Some _ => db
  | None =>
      {| db_tables :=
           <[name := {| tbl_columns := columns; tbl_rows := [] |}]> (db_tables db);
         db_indexes := db_indexes db;
         db_views := db_views db |}
  end.

(** [CREATE INDEX IF NOT EXISTS name ON tbl (col)] *)
Definition create_index_if_not_exists (name tbl col : string) (db : database)
  : database :=
  match db_indexes db !! name with
  | Some _ => db
  | None =>
      {| db_tables := db_tables db;
         db_indexes :=
           <[name := {| idx_table := tbl; idx_column := col |}]> (db_indexes db);
         db_views := db_views db |}
  end.

(** [CREATE VIEW IF NOT EXISTS name AS ...]; the query is not tracked. *)
Definition create_view_if_not_exists (name : string) (db : database)
  : database :=
  {| db_tables := db_tables db;
     db_indexes := db_indexes db;
     db_views := {[name]} ∪ db_views db |}.

(** [DROP TABLE name]: SQLite deletes the indexes of the table with it. *)
Definition drop_table (name : string) (db : database) : database :=
  {| db_tables := delete name (db_tables db);
     db_indexes := filter (λ kv, idx_table kv.2 ≠ name) (db_indexes db);
     db_views := db_views db |}.

(** The column pandas declares for a DataFrame column: a bare name. *)
Definition frame_column (name : string) : column :=
  {| col_name := name; col_primary_key := false; col_autoincrement := false;
     col_not_null := false; col_default_now := false;
     col_references := None |}.

(** [frame.to_sql(name, conn, if_exists='replace', index=False)]: pandas drops
    an existing table of that name, creates the table from the columns of the
    frame and inserts its rows. *)
Definition to_sql_replace (name : string) (columns : list string)
    (rows : list (list value)) (db : database) : database :=
  let db := match db_tables db !! name with
            | Some _ => drop_table name db
            | None => db
            end in
  {| db_tables :=
       <[name := {| tbl_columns := frame_column <$> columns;
                    tbl_rows := rows |}]> (db_tables db);
     db_indexes := db_indexes db;
     db_views := db_views db |}.


Local Open Scope io_scope.

(** ** [csv_to_sqlite.py]: the schema and the import *)

Definition games_columns : list column :=
  [ {| col_name := "appid"; col_primary_key := true;
       col_autoincrement := false; col_not_null := false;
       col_default_now := false; col_references := None |};
    {| col_name := "game_name"; col_primary_key := false;
       col_autoincrement := false; col_not_null := true;
       col_default_now := false; col_references := None |};
    {| col_name := "created_at"; col_primary_key := false;
       col_autoincrement := false; col_not_null := false;
       col_default_now := true; col_references := None |} ].

Definition player_history_columns : list column :=
  [ {| col_name := "id"; col_primary_key := true;
       col_autoincrement := true; col_not_null := false;
       col_default_now := false; col_references := None |};
    {| col_name := "appid"; col_primary_key := false;
       col_autoincrement := false; col_not_null := false;
       col_default_now := false;
       col_references := Some ("games", "appid") |};
    {| col_name := "month"; col_primary_key := false;
       col_autoincrement := false; col_not_null := true;
       col_default_now := false; col_references := None |};
    {| col_name := "avg_players"; col_primary_key := false;
       col_autoincrement := false; col_not_null := true;
       col_default_now := false; col_references := None |};
    {| col_name := "peak_players"; col_primary_key := false;
       col_autoincrement := false; col_not_null := true;
       col_default_now := false; col_references := None |};
    {| col_name := "year"; col_primary_key := false;
       col_autoincrement := false; col_not_null := false;
       col_default_now := false; col_references := None |};
    {| col_name := "month_num"; col_primary_key := false;
       col_autoincrement := false; col_not_null := false;
       col_default_now := false; col_references := None |};
    {| col_name := "created_at"; col_primary_key := false;
       col_autoincrement := false; col_not_null := false;
       col_default_now := true; col_references := None |} ].

(** [create_database_schema(conn)] *)
Definition create_database_schema (conn : string) : IO unit :=
  execute conn (create_table_if_not_exists "games" games_columns) >>
  execute conn
    (create_table_if_not_exists "player_history" player_history_columns) >>
  execute conn
    (create_index_if_not_exists "idx_appid" "player_history" "appid") >>
  execute conn
    (create_index_if_not_exists "idx_year" "player_history" "year") >>
  execute conn
    (create_index_if_not_exists "idx_month" "player_history" "month") >>
  execute conn
    (create_index_if_not_exists "idx_avg_players" "player_history"
       "avg_players") >>
  print "✓ Database schema created successfully".

(** [create_summary_views(conn)] *)
Definition create_summary_views (conn : string) : IO unit :=
  execute conn (create_view_if_not_exists "latest_player_data") >>
  execute conn (create_view_if_not_exists "top_games_avg") >>
  execute conn (create_view_if_not_exists "yearly_trends") >>
  print "✓ Created summary views for analysis".

(** [df[['appid', 'game_name']].drop_duplicates()] *)
Definition games_df (df : list Observation) : list (Z * string) :=
  unique ((λ o, (appid o, game_name o)) <$> df).

(** A row of [history_df]:
    [appid, month, avg_players, peak_players, year, month_num]. *)
Record HistoryRow := mkHistoryRow {
  h_appid : Z;
  h_month : string;
  h_avg_players : float;
  h_peak_players : Z;
  h_year : option Z;
  h_month_num : option Z
}.

(** Lines 96-101: the derived columns and the projection. *)
Definition history_row (now_year now_month : Z) (o : Observation)
  : HistoryRow :=
  let '(year, month_num) := parse_month_year now_year now_month (month o) in
  {| h_appid := appid o; h_month := month o;
     h_avg_players := avg_players o; h_peak_players := peak_players o;
     h_year := year; h_month_num := month_num |}.

(** [history_df.dropna(subset=['year', 'month_num'])] *)
Definition dropna (history_df : list HistoryRow) : list HistoryRow :=
  List.filter (λ h, match h_year h, h_month_num h with
                    | Some _, Some _ => true
                    | _, _ => false
                    end) history_df.

Definition cell_of_option (x : option Z) : value :=
  match x with Some z => VInt z | None => VNull end.

Definition history_cells (h : HistoryRow) : list value :=
  [VInt (h_appid h); VText (h_month h); VReal (h_avg_players h);
   VInt (h_peak_players h); cell_of_option (h_year h);
   cell_of_option (h_month_num h)].

Definition game_cells (g : Z * string) : list value :=
  [VInt g.1; VText g.2].

(** [datetime.now()] as (year, month). *)
Definition datetime_now : IO (Z * Z) := λ w, (Returned (clock w), w).

(** [import_csv_to_sqlite(csv_file, db_file)] *)
Definition import_csv_to_sqlite (csv_file db_file : string) : IO unit :=
  let* found := os_path_exists csv_file in
  if negb found then
    print ("❌ CSV file not found: " +:+ csv_file)
  else
    print ("📊 Loading data from " +:+ csv_file +:+ "...") >>
    let* df := read_csv csv_file in
    print ("✓ Loaded " +:+ pretty (length df) +:+ " records") >>
    let conn := db_file in
    create_database_schema conn >>
    print "📝 Processing games table..." >>
    let games := games_df df in
    execute conn
      (to_sql_replace "games" ["appid"; "game_name"] (game_cells <$> games)) >>
    print ("✓ Inserted " +:+ pretty (length games) +:+ " unique games") >>
    print "📈 Processing player history data..." >>
    let* now := datetime_now in
    let history_df := dropna (history_row now.1 now.2 <$> df) in
    execute conn
      (to_sql_replace "player_history"
         ["appid"; "month"; "avg_players"; "peak_players"; "year"; "month_num"]
         (history_cells <$> history_df)) >>
    print ("✓ Inserted " +:+ pretty (length history_df)
           +:+ " player history records") >>
    create_summary_views conn >>
    print ("✅ Database created successfully: " +:+ db_file).

(** Lines 214-219 of the script: the candidate input files, or the exit when
    there is none. *)
Definition find_csv_files : IO (list string) :=
  let* names := os_listdir in
  let csv_files :=
    List.filter (λ f, Py.endswith f ".csv" && Py.contains "steam" (Py.lower f))
      names in
  match csv_files with
  | [] => print "❌ No Steam CSV files found in current directory" >>
          let* _ := exit in ret csv_files
  | _ => ret csv_files
  end.

Local Close Scope io_scope.

(** ** The schema as the specification states it (section 6) *)

(** [games(appid PK, game_name, created_at)],
    [player_history(id PK autoincrement, appid FK, month, avg_players,
    peak_players, year, month_num, created_at)], with indexes on [appid],
    [year], [month] and [avg_players]. *)
Definition has_stated_schema (db : database) : Prop :=
  tbl_columns <$> db_tables db !! "games" = Some games_columns
  ∧ tbl_columns <$> db_tables db !! "player_history"
    = Some player_history_columns
  ∧ ∀ col, col ∈ ["appid"; "year"; "month"; "avg_players"] →
      ∃ name,
        db_indexes db !! name
        = Some {| idx_table := "player_history"; idx_column := col |}.

(** The statements [import_csv_to_sqlite] runs on its connection, in order:
    the schema, the two [to_sql] calls, the views. *)
Definition schema_statements (db : database) : database :=
  create_index_if_not_exists "idx_avg_players" "player_history" "avg_players"
    (create_index_if_not_exists "idx_month" "player_history" "month"
       (create_index_if_not_exists "idx_year" "player_history" "year"
          (create_index_if_not_exists "idx_appid" "player_history" "appid"
             (create_table_if_not_exists "player_history"
                player_history_columns
                (create_table_if_not_exists "games" games_columns db))))).

Definition view_statements (db : database) : database :=
  create_view_if_not_exists "yearly_trends"
    (create_view_if_not_exists "top_games_avg"
       (create_view_if_not_exists "latest_player_data" db)).

Definition import_statements (df : list Observation) (now : Z * Z)
    (db : database) : database :=
  view_statements
    (to_sql_replace "player_history"
       ["appid"; "month"; "avg_players"; "peak_players"; "year"; "month_num"]
       (history_cells <$> dropna (history_row now.1 now.2 <$> df))
       (to_sql_replace "games" ["appid"; "game_name"]
          (game_cells <$> games_df df)
          (schema_statements db))).

(** ** Sample data *)

Fixpoint all_digits (s : string) : bool :=
  match s with
  | EmptyString => true
  | String c s' => Py.is_digit c && all_digits s'
  end.

(** An instance of the library parser for the examples: an English month
    name and a year of four digits give the month's [Timestamp], counted in
    months; any other label is [NaT]. *)
Definition month_year_to_datetime (label : string) : option Z :=
  match Py.split label with
  | [name; year] =>
      if all_digits year && (String.length year =? 4)%nat then
        match month_mapping !! name, Py.int year with
        | Some m, Some y => Some (12 * y + m - 1)
        | _, _ => None
        end
      else None
  | _ => None
  end.

Definition observation (id : Z) (name label : string) (avg : float)
  : Observation :=
  {| appid := id; game_name := name; month := label; avg_players := avg;
     peak_players := 2000 |}.

(** The series of the specification's example, one game, in calendar order. *)
Definition example_series : list Observation :=
  [ observation 230410 "Warframe" "January 2013" 0;
    observation 230410 "Warframe" "February 2013" 0;
    observation 230410 "Warframe" "March 2013" 600;
    observation 230410 "Warframe" "April 2013" 700;
    observation 230410 "Warframe" "May 2013" 400;
    observation 230410 "Warframe" "June 2013" 800;
    observation 230410 "Warframe" "July 2013" 900;
    observation 230410 "Warframe" "August 2013" 900 ].

(** A series that never stays at 500 players for two months. *)
Definition quiet_series : list Observation :=
  [ observation 10 "Quiet" "March 2020" 700;
    observation 10 "Quiet" "January 2020" 650;
    observation 10 "Quiet" "February 2020" 100;
    observation 10 "Quiet" "Last 30 Days" 20 ].


(** A series that is above 500 players from its first month. *)
Definition steady_series : list Observation :=
  [ observation 30 "Steady" "January 2021" 600;
    observation 30 "Steady" "February 2021" 700;
    observation 30 "Steady" "March 2021" 800 ].

(** Two applications with one name. *)
Definition shared_name_frame : list Observation :=
  [ observation 1 "Twin" "January 2020" 0;
    observation 2 "Twin" "February 2020" 900;
    observation 1 "Twin" "March 2020" 900;
    observation 3 "Other" "January 2020" 5;
    observation 2 "Twin" "April 2020" 900 ].

(** ** The script of [csv_to_sqlite.py]: which file is converted *)

(** [old in s] replaced: [s.replace(old, new)] for a non-empty [old], the
    occurrences being taken from the left and not overlapping. [skip] is the
    number of characters of the current occurrence still to pass over. *)
Fixpoint replace_from (old new : string) (skip : nat) (s : string) : string :=
  match s with
  | EmptyString => EmptyString
  | String c s' =>
      match skip with
      | S k => replace_from old new k s'
      | O =>
          if String.prefix old s
          then new +:+ replace_from old new (String.length old - 1) s'
          else String c (replace_from old new 0 s')
      end
  end.

(** With an empty [old], Python puts [new] before every character and at
    the end. *)
Fixpoint replace_empty (new : string) (s : string) : string :=
  match s with
  | EmptyString => new
  | String c s' => new +:+ String c (replace_empty new s')
  end.

(** [s.replace(old, new)] *)
Definition replace (old new s : string) : string :=
  if Py.is_empty old then replace_empty new s else replace_from old new 0 s.

(** [str.isdigit] on one character: below 256 the digits 0..9 and the
    superscripts 2, 3 and 1. *)
Definition isdigit_char (c : ascii) : bool :=
  let n := nat_of_ascii c in
  Py.is_digit c || (n =? 178)%nat || (n =? 179)%nat || (n =? 185)%nat.

Fixpoint all_isdigit (s : string) : bool :=
  match s with
  | EmptyString => true
  | String c s' => isdigit_char c && all_isdigit s'
  end.

(** [s.isdigit()]: at least one character, and digits only. *)
Definition isdigit (s : string) : bool := negb (Py.is_empty s) && all_isdigit s.

(** The loop of [max(..., key=key)] after [best]: a later element replaces
    the best one only when its key is greater. *)
Fixpoint max_by {A} (key : A → Z) (best : A) (l : list A) : A :=
  match l with
  | [] => best
  | x :: l' => max_by key (if key best <? key x then x else best) l'
  end.

(** The value of [csv_file] after lines 226-236, for the candidates
    [csv_files], the line [typed] that [input] returns when it is called,
    and the modification times [getmtime] (as integers, in the order of the
    floats of [os.path.getmtime]). [None] stands for an exception that the
    script does not catch: the [ValueError] of [int], or that of [max] on
    no file. The lines printed on the way are left out. *)
Definition choose_csv_file (csv_files : list string) (typed : string)
    (getmtime : string → Z) : option string :=
  match csv_files with
  | [csv_file] => Some csv_file
  | _ =>
      let choice := Py.strip typed in
      let newest :=
        match csv_files with
        | [] => None
        | f :: files => Some (max_by getmtime f files)
        end in
      if isdigit choice then
        match Py.int choice with
        | Some n =>
            if (1 <=? n) && (n <=? Z.of_nat (length csv_files))
            then csv_files !! Z.to_nat (n - 1)
            else newest
        | None => None
        end
      else newest
  end.

(** [db_file = csv_file.replace('.csv', '.db')] *)
Definition db_file_of (csv_file : string) : string :=
  replace ".csv" ".db" csv_file.

(** ** Reading digits *)

(** The number that a string of decimal digits denotes, after the digits
    [acc] already read. *)
Fixpoint decimal_from (acc : Z) (s : string) : Z :=
  match s with
  | EmptyString => acc
  | String c s' => decimal_from (10 * acc + Py.digit_value c) s'
  end.

Definition decimal (s : string) : Z := decimal_from 0 s.

(** The number of whitespace characters of a string. *)
Fixpoint count_space (s : string) : nat :=
  match s with
  | EmptyString => 0
  | String c s' => (if Py.isspace c then 1 else 0) + count_space s'
  end.

(** * Properties of the Cleaner *)

(** ** Sorting by date *)

Lemma date_le_total a b : date_le a b = false → date_le b a = true.
Proof. destruct a, b; simpl; try done. intros H. apply Z.leb_le. apply Z.leb_gt in H. lia. Qed.

Lemma insert_by_date_length r l : length (insert_by_date r l) = S (length l).
Proof.
  induction l as [|y l IH]; simpl; [done|].
  destruct (date_le (date r) (date y)); simpl; [done|]. by rewrite IH.
Qed.

Lemma sort_values_length l : length (sort_values l) = length l.
Proof.
  induction l as [|r l IH]; simpl; [done|].
  by rewrite insert_by_date_length, IH.
Qed.

Lemma insert_by_date_perm r l : insert_by_date r l ≡ₚ r :: l.
Proof.
  induction l as [|y l IH]; simpl; [done|].
  destruct (date_le (date r) (date y)); [done|].
  rewrite IH. apply Permutation_swap.
Qed.

Lemma sort_values_perm l : sort_values l ≡ₚ l.
Proof.
  induction l as [|r l IH]; simpl; [done|].
  by rewrite insert_by_date_perm, IH.
Qed.

Lemma insert_by_date_sorted r l :
  Sorted date_ordered l → Sorted date_ordered (insert_by_date r l).
Proof.
  induction 1 as [|y l Hl IH Hhd]; simpl.
  - by repeat constructor.
  - destruct (date_le (date r) (date y)) eqn:E.
    + constructor; [by constructor|]. by constructor.
    + constructor; [done|].
      destruct Hhd as [|z l' Hz]; simpl.
      * constructor. by apply date_le_total.
      * destruct (date_le (date r) (date z)); constructor;
          [by apply date_le_total | done].
Qed.

Lemma sort_values_sorted l : Sorted date_ordered (sort_values l).
Proof.
  induction l as [|r l IH]; simpl; [constructor|].
  by apply insert_by_date_sorted.
Qed.

(** A frame already in order is left as it is: the sort is stable. *)
Lemma sort_values_of_sorted l : Sorted date_ordered l → sort_values l = l.
Proof.
  induction 1 as [|y l Hl IH Hhd]; simpl; [done|].
  rewrite IH. destruct Hhd as [|z l' Hz]; simpl; [done|].
  unfold date_ordered in Hz. by rewrite Hz.
Qed.

Lemma Sorted_drop {A} (R : A → A → Prop) n l : Sorted R l → Sorted R (drop n l).
Proof.
  revert l. induction n as [|n IH]; intros l Hl; [done|].
  destruct l as [|x l]; simpl; [constructor|].
  apply IH. by inversion Hl.
Qed.

(** ** The scan and the run-length counter *)

Section Scan.

Variable min_avg_players : float.
Variable min_consecutive_months : Z.

Local Abbreviation scan :=
  (find_meaningful_start min_avg_players min_consecutive_months).
Local Abbreviation counter := (foldl (counter_step min_avg_players) 0).

Lemma counter_snoc pre r :
  counter (pre ++ [r]) = counter_step min_avg_players (counter pre) r.
Proof. by rewrite foldl_app. Qed.

Lemma run_length_app pre r rest :
  run_length min_avg_players (pre ++ r :: rest) (length pre)
  = counter_step min_avg_players (counter pre) r.
Proof.
  unfold run_length.
  replace (S (length pre)) with (length (pre ++ [r])) by (rewrite length_app; simpl; lia).
  replace (pre ++ r :: rest) with ((pre ++ [r]) ++ rest) by (by rewrite <- app_assoc).
  rewrite take_app_length. apply counter_snoc.
Qed.

Lemma counter_nonneg pre : 0 ≤ counter pre.
Proof.
  induction pre as [|r pre IH] using rev_ind; [simpl; lia|].
  rewrite counter_snoc. set (c := counter pre) in *.
  unfold counter_step. destruct (meets _ r); lia.
Qed.

(** The loop started after the rows [pre] finds the first position of
    [pre ++ rows] past [pre] at which the counter reaches the length. *)
Lemma scan_first_reach rows : ∀ pre,
  scan rows (Z.of_nat (length pre)) (counter pre)
  = (λ i : nat, Z.max 0 (Z.of_nat i - min_consecutive_months + 1)) <$>
    List.find (reaches min_avg_players min_consecutive_months (pre ++ rows))
      (seq (length pre) (length rows)).
Proof.
  induction rows as [|r rows IH]; intros pre; simpl; [done|].
  unfold reaches at 1.
  rewrite (list_lookup_middle pre rows r (length pre)) by done.
  rewrite run_length_app.
  specialize (IH (pre ++ [r])).
  rewrite length_app, counter_snoc in IH. simpl in IH.
  replace (Z.of_nat (length pre + 1)) with (Z.of_nat (length pre) + 1) in IH by lia.
  replace (length pre + 1)%nat with (S (length pre)) in IH by lia.
  rewrite <- app_assoc in IH. simpl in IH.
  set (c := counter pre) in *. unfold counter_step in *.
  destruct (meets min_avg_players r) eqn:Em; simpl.
  - destruct (min_consecutive_months <=? c + 1) eqn:El; simpl; [done|].
    apply IH.
  - apply IH.
Qed.

Lemma scan_zero rows :
  scan rows 0 0
  = (λ i : nat, Z.max 0 (Z.of_nat i - min_consecutive_months + 1)) <$>
    first_reach min_avg_players min_consecutive_months rows.
Proof. apply (scan_first_reach rows []). Qed.

(** The counter after [pre] counts a block of rows at the end of [pre] that
    all meet the threshold. *)
Lemma counter_block pre :
  ∃ front run, pre = front ++ run
    ∧ Z.of_nat (length run) = counter pre
    ∧ Forall (λ r, meets min_avg_players r = true) run.
Proof.
  induction pre as [|r pre (front & run & -> & Hlen & Hrun)] using rev_ind.
  - by exists [], [].
  - rewrite counter_snoc. unfold counter_step at 1.
    destruct (meets min_avg_players r) eqn:Em.
    + exists front, (run ++ [r]). split; [by rewrite app_assoc|]. split.
      * rewrite length_app. simpl. lia.
      * apply Forall_app. split; [done|]. by constructor.
    + exists ((front ++ run) ++ [r]), []. split; [by rewrite app_nil_r|].
      split; [done | constructor].
Qed.


(** Rows that all fail the threshold never stop the loop. *)
Lemma scan_none_below rows : ∀ idx count,
  Forall (λ r, meets min_avg_players r = false) rows →
  scan rows idx count = None.
Proof.
  induction rows as [|r rows IH]; intros idx count Hall; [done|].
  apply Forall_cons in Hall as [Hr Hrows]. simpl. rewrite Hr. by apply IH.
Qed.


End Scan.

(** ** The first position that reaches the length *)

Lemma find_seq_Some (f : nat → bool) n : ∀ a i,
  List.find f (seq a n) = Some i →
  (a ≤ i < a + n)%nat ∧ f i = true ∧ ∀ j, (a ≤ j < i)%nat → f j = false.
Proof.
  induction n as [|n IH]; intros a i; simpl; [done|].
  destruct (f a) eqn:Ea.
  - intros [= <-]. repeat split; [lia|lia|done|]. intros j Hj. lia.
  - intros Hfind. destruct (IH _ _ Hfind) as (Hi & Hfi & Hmin).
    repeat split; [lia|lia|done|]. intros j Hj.
    destruct (decide (j = a)) as [->|]; [done|]. apply Hmin. lia.
Qed.

Lemma find_seq_None (f : nat → bool) n : ∀ a,
  List.find f (seq a n) = None → ∀ j, (a ≤ j < a + n)%nat → f j = false.
Proof.
  induction n as [|n IH]; intros a; simpl; [intros _ j Hj; lia|].
  destruct (f a) eqn:Ea; [done|]. intros Hfind j Hj.
  destruct (decide (j = a)) as [->|]; [done|]. apply (IH _ Hfind). lia.
Qed.

Lemma find_seq_intro (f : nat → bool) n : ∀ a i,
  (a ≤ i < a + n)%nat → f i = true → (∀ j, (a ≤ j < i)%nat → f j = false) →
  List.find f (seq a n) = Some i.
Proof.
  induction n as [|n IH]; intros a i Hi Hfi Hmin; simpl; [lia|].
  destruct (decide (i = a)) as [->|Hne]; [by rewrite Hfi|].
  rewrite (Hmin a) by lia. apply IH; [lia|done|]. intros j Hj. apply Hmin. lia.
Qed.

Section FirstReach.

Variable min_avg_players : float.
Variable min_consecutive_months : Z.

Local Abbreviation scan :=
  (find_meaningful_start min_avg_players min_consecutive_months).
Local Abbreviation counter := (foldl (counter_step min_avg_players) 0).
Local Abbreviation run_length' := (run_length min_avg_players).
Local Abbreviation reaches' :=
  (reaches min_avg_players min_consecutive_months).
Local Abbreviation first_reach' :=
  (first_reach min_avg_players min_consecutive_months).

Lemma first_reach_Some l i :
  first_reach' l = Some i →
  (i < length l)%nat ∧ reaches' l i = true
  ∧ ∀ j, (j < i)%nat → reaches' l j = false.
Proof.
  intros H. apply find_seq_Some in H as (Hi & Hr & Hmin).
  repeat split; [lia|done|]. intros j Hj. apply Hmin. lia.
Qed.

Lemma first_reach_None l :
  first_reach' l = None → ∀ j, reaches' l j = false.
Proof.
  intros H j. destruct (decide (j < length l)%nat) as [Hj|Hj].
  - apply (find_seq_None _ _ _ H). lia.
  - unfold reaches. by rewrite lookup_ge_None_2 by lia.
Qed.

Lemma run_length_0 (l : list Row) r :
  l !! 0%nat = Some r →
  run_length' l 0 = counter_step min_avg_players 0 r.
Proof. destruct l as [|r' l]; [done|]. by intros [= ->]. Qed.

Lemma run_length_S (l : list Row) j r :
  l !! S j = Some r →
  run_length' l (S j) = counter_step min_avg_players (run_length' l j) r.
Proof.
  intros Hr. unfold run_length. rewrite (take_S_r l (S j) r Hr).
  by rewrite foldl_app.
Qed.

Lemma run_length_positive (l : list Row) j r :
  l !! j = Some r → 1 ≤ run_length' l j → meets min_avg_players r = true.
Proof.
  intros Hr. destruct j as [|j].
  - rewrite (run_length_0 l r Hr). unfold counter_step.
    destruct (meets min_avg_players r); [done | lia].
  - rewrite (run_length_S l j r Hr). unfold counter_step at 1.
    destruct (meets min_avg_players r); [done | lia].
Qed.

Lemma run_length_nonneg (l : list Row) j : 0 ≤ run_length' l j.
Proof. unfold run_length. apply counter_nonneg. Qed.

(** For a length of at least one, the counter reaches the length at a
    position exactly when it is at least the length there. *)
Lemma reaches_run_length (l : list Row) i :
  1 ≤ min_consecutive_months → (i < length l)%nat →
  reaches' l i = (min_consecutive_months <=? run_length' l i).
Proof.
  intros Hm Hi. unfold reaches.
  destruct (lookup_lt_is_Some_2 l i Hi) as [r Hr]. rewrite Hr.
  destruct (min_consecutive_months <=? run_length' l i) eqn:E;
    [|by rewrite andb_false_r].
  apply Z.leb_le in E. rewrite (run_length_positive l i r Hr); [done | lia].
Qed.

(** At the first position that reaches the length, the counter is the
    length itself. *)
Lemma first_reach_exact l i :
  1 ≤ min_consecutive_months → first_reach' l = Some i →
  run_length' l i = min_consecutive_months.
Proof.
  intros Hm H. apply first_reach_Some in H as (Hi & Hr & Hmin).
  rewrite reaches_run_length in Hr by done. apply Z.leb_le in Hr.
  destruct (lookup_lt_is_Some_2 l i Hi) as [r Hlr].
  destruct i as [|j].
  - rewrite (run_length_0 l r Hlr) in *. unfold counter_step in *.
    destruct (meets min_avg_players r); lia.
  - specialize (Hmin j ltac:(lia)).
    rewrite reaches_run_length in Hmin by (done || lia).
    apply Z.leb_gt in Hmin.
    rewrite (run_length_S l j r Hlr) in *.
    set (c := run_length' l j) in *. unfold counter_step in *.
    destruct (meets min_avg_players r); lia.
Qed.

(** The rows from the cut index to the first reaching position all meet the
    threshold, and there are exactly [min_consecutive_months] of them. *)
Lemma first_reach_block l i :
  1 ≤ min_consecutive_months → first_reach' l = Some i →
  ∃ front run,
    l = front ++ run ++ drop (S i) l
    ∧ Z.of_nat (length front) = Z.of_nat i - min_consecutive_months + 1
    ∧ Z.of_nat (length run) = min_consecutive_months
    ∧ Forall (λ r, meets min_avg_players r = true) run.
Proof.
  intros Hm H. pose proof (first_reach_exact l i Hm H) as Hexact.
  apply first_reach_Some in H as (Hi & _ & _).
  destruct (counter_block min_avg_players (take (S i) l))
    as (front & run & Htake & Hlen & Hrun).
  fold (run_length' l i) in Hlen. rewrite Hexact in Hlen.
  exists front, run. repeat split; [| |done|done].
  - rewrite app_assoc, <- Htake. by rewrite take_drop.
  - assert (length (take (S i) l) = S i) as Hl by (rewrite length_take; lia).
    rewrite Htake, length_app in Hl. lia.
Qed.

Lemma first_reach_has_run l i :
  first_reach' l = Some i →
  has_run min_avg_players (Z.to_nat min_consecutive_months) l = true.
Proof.
  intros H. unfold has_run. apply existsb_exists.
  destruct (decide (1 ≤ min_consecutive_months)) as [Hm|Hm].
  - destruct (first_reach_block l i Hm H) as (front & run & Hl & Hf & Hr & Hall).
    exists (length front). split.
    + apply in_seq. rewrite Hl, length_app. lia.
    + rewrite Hl. rewrite drop_app_length.
      rewrite take_app_length' by lia.
      apply andb_true_iff. split.
      * apply forallb_forall. intros r Hin.
        rewrite Forall_forall in Hall. apply Hall. by apply list_elem_of_In.
      * apply Nat.eqb_eq. lia.
  - exists 0%nat. split; [apply in_seq; lia|].
    replace (Z.to_nat min_consecutive_months) with 0%nat by lia. done.
Qed.

(** Rows past the first reaching position play no part. *)
Lemma reaches_take l i rest j :
  (j ≤ i)%nat → (i < length l)%nat →
  reaches' (take (S i) l ++ rest) j = reaches' l j.
Proof.
  intros Hj Hi. unfold reaches, run_length.
  assert (length (take (S i) l) = S i) as Hlen by (rewrite length_take; lia).
  rewrite lookup_app_l by lia. rewrite lookup_take_lt by lia.
  rewrite take_app_le by lia. rewrite take_take.
  by replace (S j `min` S i)%nat with (S j) by lia.
Qed.

Lemma first_reach_take l i rest :
  first_reach' l = Some i → first_reach' (take (S i) l ++ rest) = Some i.
Proof.
  intros H. apply first_reach_Some in H as (Hi & Hr & Hmin).
  assert (length (take (S i) l) = S i) as Hlen by (rewrite length_take; lia).
  apply find_seq_intro.
  - rewrite length_app. lia.
  - by rewrite reaches_take.
  - intros j Hj. rewrite reaches_take by lia. apply Hmin. lia.
Qed.

End FirstReach.

(** ** One frame per game *)

Lemma filter_all {A} (P : A → Prop) `{∀ x, Decision (P x)} (l : list A) :
  Forall P l → filter P l = l.
Proof.
  induction 1 as [|x l Hx Hl IH]; [done|].
  by rewrite filter_cons_True, IH.
Qed.

Lemma filter_none {A} (P : A → Prop) `{∀ x, Decision (P x)} (l : list A) :
  Forall (λ x, ¬ P x) l → filter P l = [].
Proof.
  induction 1 as [|x l Hx Hl IH]; [done|].
  by rewrite filter_cons_False.
Qed.

Lemma elem_of_unique `{EqDecision A} (l : list A) x : x ∈ unique l ↔ x ∈ l.
Proof.
  induction l as [|y l IH]; simpl; [done|].
  rewrite !elem_of_cons, list_elem_of_filter, IH.
  destruct (decide (x = y)); tauto.
Qed.

Lemma NoDup_unique `{EqDecision A} (l : list A) : NoDup (unique l).
Proof.
  induction l as [|y l IH]; simpl; [constructor|].
  constructor; [|by apply NoDup_filter].
  rewrite list_elem_of_filter. intros [Hne _]. by apply Hne.
Qed.

Lemma fmap_fixed {A} (f : A → A) (l : list A) :
  Forall (λ x, f x = x) l → f <$> l = l.
Proof. induction 1 as [|x l Hx _ IH]; [done|]. by rewrite fmap_cons, Hx, IH. Qed.

Lemma filter_fmap {A B} (f : A → B) (P : B → Prop) `{∀ y, Decision (P y)}
    (l : list A) :
  filter P (f <$> l) = f <$> filter (λ x, P (f x)) l.
Proof.
  induction l as [|x l IH]; [done|].
  rewrite fmap_cons, !filter_cons, IH. by destruct (decide (P (f x))).
Qed.

(** A block of equal names at the front contributes its name once. *)
Lemma unique_block (n : string) (block rest : list string) :
  Forall (λ x, x = n) block → block ≠ [] →
  unique (block ++ rest) = n :: filter (λ y, y ≠ n) (unique rest).
Proof.
  induction 1 as [|x block -> _ IH]; intros Hne; [done|].
  destruct block as [|x' block]; [done|].
  cbn [app unique] in *. rewrite IH by done.
  rewrite filter_cons_False by (intros Hc; by apply Hc).
  f_equal. apply filter_all. apply Forall_forall. intros y Hy.
  by apply list_elem_of_filter in Hy as [? _].
Qed.

Lemma unique_blocks {A} (name_of : A → string) (blocks : string → list A)
    (names : list string) :
  NoDup names →
  (∀ n, Forall (λ x, name_of x = n) (blocks n)) →
  (∀ n, n ∈ names → blocks n ≠ []) →
  unique (name_of <$> concat (blocks <$> names)) = names.
Proof.
  intros Hnames Hblock Hne.
  induction Hnames as [|n names Hn Hnames IH]; [done|].
  rewrite fmap_cons. cbn [concat]. rewrite fmap_app.
  rewrite (unique_block n).
  - rewrite IH by (intros n' Hn'; apply Hne, elem_of_cons; by right).
    f_equal. apply filter_all. apply Forall_forall. intros y Hy ->. done.
  - apply Forall_fmap. eapply Forall_impl; [apply Hblock|]. done.
  - intros Hnil. apply fmap_nil_inv in Hnil.
    apply (Hne n); [apply elem_of_cons; by left | done].
Qed.

Lemma no_game_no_row (df : list Observation) :
  unique (game_name <$> df) = [] → df = [].
Proof. by destruct df. Qed.

Lemma iloc_from_drop start l : ∃ k, iloc_from start l = drop k l.
Proof. unfold iloc_from. destruct (start <? 0); eauto. Qed.

Lemma iloc_from_nonneg start l :
  0 ≤ start → iloc_from start l = drop (Z.to_nat start) l.
Proof.
  intros H. unfold iloc_from.
  by replace (start <? 0) with false by (symmetry; apply Z.ltb_ge; lia).
Qed.

Section Frames.

Variable to_datetime : string → option Z.
Variable min_avg_players : float.
Variable min_consecutive_months : Z.

Local Abbreviation clean_one :=
  (λ game_data, clean_one_game to_datetime game_data
                  min_avg_players min_consecutive_months).

Lemma clean_game_data_concat df :
  clean_game_data to_datetime df min_avg_players min_consecutive_months
  = concat ((λ name, clean_one (game_rows name df))
              <$> unique (game_name <$> df)).
Proof.
  unfold clean_game_data.
  by destruct (unique (game_name <$> df)).
Qed.

Lemma sorted_game_data_perm game_data :
  sorted_game_data to_datetime game_data
  ≡ₚ assign_date to_datetime <$> game_data.
Proof. apply sort_values_perm. Qed.

Lemma sorted_game_data_length game_data :
  length (sorted_game_data to_datetime game_data) = length game_data.
Proof.
  unfold sorted_game_data. by rewrite sort_values_length, length_map.
Qed.

(** The cleaned frame of a game is its dated, sorted frame or that frame
    without some leading rows. *)
Lemma clean_one_game_drop game_data :
  ∃ k, clean_one game_data = drop k (sorted_game_data to_datetime game_data).
Proof.
  unfold clean_one_game.
  destruct (find_meaningful_start _ _ _ _ _) as [start|].
  - apply iloc_from_drop.
  - by exists 0%nat.
Qed.

Lemma clean_one_game_elem game_data r :
  r ∈ clean_one game_data →
  ∃ o, r = assign_date to_datetime o ∧ o ∈ game_data.
Proof.
  destruct (clean_one_game_drop game_data) as [k ->]. intros Hr.
  apply (subseteq_drop k) in Hr. rewrite sorted_game_data_perm in Hr.
  apply list_elem_of_fmap in Hr as (o & -> & Ho). eauto.
Qed.

Lemma clean_one_game_name name df :
  Forall (λ r : Row, game_name r = name) (clean_one (game_rows name df)).
Proof.
  apply Forall_forall. intros r Hr.
  apply clean_one_game_elem in Hr as (o & -> & Ho).
  unfold game_rows in Ho. apply list_elem_of_filter in Ho as [Hn _]. done.
Qed.

Lemma cleaned_rows_concat name (names : list string) df :
  NoDup names →
  cleaned_rows name (concat ((λ n, clean_one (game_rows n df)) <$> names))
  = if decide (name ∈ names) then clean_one (game_rows name df) else [].
Proof.
  unfold cleaned_rows.
  induction 1 as [|n names Hn Hnames IH]; [done|].
  rewrite fmap_cons. cbn [concat].
  rewrite filter_app, IH. destruct (decide (name = n)) as [->|Hne].
  - destruct (decide (n ∈ names)); [done|].
    destruct (decide (n ∈ n :: names)) as [_|Hc];
      [|exfalso; apply Hc, elem_of_cons; by left].
    rewrite app_nil_r. apply filter_all, clean_one_game_name.
  - rewrite filter_none.
    + simpl. destruct (decide (name ∈ names)) as [Hin|Hnin];
        destruct (decide (name ∈ n :: names)) as [Hin'|Hnin']; try done.
      * exfalso. apply Hnin', elem_of_cons. by right.
      * exfalso. apply elem_of_cons in Hin'. tauto.
    + eapply Forall_impl; [apply clean_one_game_name|]. simpl. congruence.
Qed.

(** All the rows of the cleaned frame that carry a name are the cleaned
    frame of the rows of the input that carry it. *)
Lemma cleaned_rows_game name df :
  cleaned_rows name
    (clean_game_data to_datetime df min_avg_players min_consecutive_months)
  = clean_one (game_rows name df).
Proof.
  rewrite clean_game_data_concat, cleaned_rows_concat by apply NoDup_unique.
  destruct (decide (name ∈ unique (game_name <$> df))) as [|Hnin]; [done|].
  rewrite elem_of_unique in Hnin.
  replace (game_rows name df) with (@nil Observation); [done|].
  symmetry. apply filter_none. apply Forall_forall. intros o Ho Hname.
  apply Hnin. apply list_elem_of_fmap. eauto.
Qed.


(** A frame with one name is cleaned as one series. *)
Lemma clean_game_data_single name df :
  Forall (λ o, game_name o = name) df →
  clean_game_data to_datetime df min_avg_players min_consecutive_months
  = clean_one df.
Proof.
  intros Hname. rewrite clean_game_data_concat.
  destruct (decide (df = [])) as [->|Hne]; [done|].
  replace (game_name <$> df) with ((game_name <$> df) ++ [])
    by apply app_nil_r.
  rewrite (unique_block name).
  - simpl. rewrite app_nil_r. unfold game_rows. by rewrite filter_all.
  - by apply Forall_fmap.
  - intros Hnil. by apply fmap_nil_inv in Hnil.
Qed.

End Frames.

(** ** The cut index *)

(** C1. The series of a game is put in calendar order; the Cleaner scans it
    in that order with a run-length counter of the observations at or above
    the threshold; the first time the counter reaches
    [min_consecutive_months], at position [i], the loop stops with the cut
    index [max(0, i - min_consecutive_months + 1)] whatever rows follow, and
    the cleaned series is the sorted series from the cut index to the end. *)
Theorem clean_cuts_at_first_reach
    (to_datetime : string → option Z) (min_avg_players : float)
    (min_consecutive_months : Z) (df : list Observation) (name : string)
    (i : nat) :
  let game_data := sorted_game_data to_datetime (game_rows name df) in
  let cut := Z.max 0 (Z.of_nat i - min_consecutive_months + 1) in
  Sorted date_ordered game_data
  ∧ game_data ≡ₚ assign_date to_datetime <$> game_rows name df
  ∧ (first_reach min_avg_players min_consecutive_months game_data = Some i →
     find_meaningful_start min_avg_players min_consecutive_months
       game_data 0 0 = Some cut
     ∧ (∀ later,
          find_meaningful_start min_avg_players min_consecutive_months
            (take (S i) game_data ++ later) 0 0 = Some cut)
     ∧ cleaned_rows name
         (clean_game_data to_datetime df min_avg_players
            min_consecutive_months)
       = drop (Z.to_nat cut) game_data).
Proof.
  intros game_data cut.
  split; [apply sort_values_sorted|].
  split; [apply sorted_game_data_perm|].
  intros Hfirst.
  assert (find_meaningful_start min_avg_players min_consecutive_months
            game_data 0 0 = Some cut) as Hscan.
  { by rewrite scan_zero, Hfirst. }
  split; [done|]. split.
  - intros later. rewrite scan_zero.
    by rewrite (first_reach_take _ _ _ _ later Hfirst).
  - rewrite cleaned_rows_game. unfold clean_one_game.
    fold game_data. rewrite Hscan. apply iloc_from_nonneg. lia.
Qed.

Lemma clean_cuts_at_first_reach_witness :
  first_reach 500 2
    (sorted_game_data month_year_to_datetime
       (game_rows "Warframe" example_series)) = Some 3%nat
  ∧ cleaned_rows "Warframe"
      (clean_game_data month_year_to_datetime example_series 500 2)
    = drop 2 (sorted_game_data month_year_to_datetime
                (game_rows "Warframe" example_series)).
Proof.
  split; [vm_compute; reflexivity|].
  destruct (clean_cuts_at_first_reach month_year_to_datetime 500 2
              example_series "Warframe" 3) as (_ & _ & Hcut).
  apply Hcut. vm_compute; reflexivity.
Defined.

(** C3. When the sorted series of a game has no run of
    [min_consecutive_months] consecutive observations at or above the
    threshold, and in particular when no observation is at or above it, the
    cleaned series is the whole input series in calendar order: every
    observation of the game is there, none is removed. *)
Theorem clean_keeps_series_without_run
    (to_datetime : string → option Z) (min_avg_players : float)
    (min_consecutive_months : Z) (df : list Observation) (name : string) :
  let game_data := sorted_game_data to_datetime (game_rows name df) in
  let cleaned :=
    cleaned_rows name
      (clean_game_data to_datetime df min_avg_players
         min_consecutive_months) in
  has_run min_avg_players (Z.to_nat min_consecutive_months) game_data = false
  ∨ Forall (λ o, PrimFloat.leb min_avg_players (avg_players o) = false)
      (game_rows name df) →
  cleaned = game_data
  ∧ Sorted date_ordered cleaned
  ∧ cleaned ≡ₚ assign_date to_datetime <$> game_rows name df.
Proof.
  intros game_data cleaned H.
  assert (cleaned = game_data) as ->.
  { unfold cleaned. rewrite cleaned_rows_game. unfold clean_one_game.
    fold game_data.
    replace (find_meaningful_start min_avg_players min_consecutive_months
               game_data 0 0) with (@None Z); [done|].
    symmetry. destruct H as [Hrun|Hbelow].
    - rewrite scan_zero.
      destruct (first_reach _ _ game_data) as [i|] eqn:Hfirst; [|done].
      apply first_reach_has_run in Hfirst. congruence.
    - apply scan_none_below. apply Forall_forall. intros r Hr.
      unfold game_data in Hr. rewrite sorted_game_data_perm in Hr.
      apply list_elem_of_fmap in Hr as (o & -> & Ho).
      rewrite Forall_forall in Hbelow. by apply Hbelow. }
  split; [done|]. split; [apply sort_values_sorted|].
  apply sorted_game_data_perm.
Qed.

Lemma clean_keeps_series_without_run_witness :
  has_run 500 (Z.to_nat 2)
    (sorted_game_data month_year_to_datetime (game_rows "Quiet" quiet_series))
  = false
  ∧ cleaned_rows "Quiet"
      (clean_game_data month_year_to_datetime quiet_series 500 2)
    = sorted_game_data month_year_to_datetime (game_rows "Quiet" quiet_series).
Proof.
  split; [vm_compute; reflexivity|].
  apply (clean_keeps_series_without_run month_year_to_datetime 500 2
           quiet_series "Quiet").
  left. vm_compute; reflexivity.
Defined.

(** ** Lengths *)

Lemma clean_one_game_length to_datetime game_data thr months :
  (length (clean_one_game to_datetime game_data thr months)
   ≤ length game_data)%nat.
Proof.
  destruct (clean_one_game_drop to_datetime thr months game_data) as [k ->].
  rewrite length_drop, sorted_game_data_length. lia.
Qed.

Lemma game_rows_lengths (df : list Observation) (names : list string) :
  NoDup names →
  (length (concat ((λ n, game_rows n df) <$> names))
   ≤ length (filter (λ o, game_name o ∈ names) df))%nat.
Proof.
  induction 1 as [|n names Hn Hnames IH]; [simpl; lia|].
  rewrite fmap_cons. cbn [concat]. rewrite length_app.
  etrans; [apply Nat.add_le_mono_l, IH|]. clear IH. unfold game_rows.
  induction df as [|o df IH]; [done|].
  rewrite !filter_cons.
  destruct (decide (game_name o = n)) as [->|Hne].
  - rewrite decide_False by done.
    rewrite decide_True by (apply elem_of_cons; by left). simpl. lia.
  - destruct (decide (game_name o ∈ names)) as [Hin|Hnin].
    + rewrite decide_True by (apply elem_of_cons; by right). simpl. lia.
    + rewrite decide_False by (rewrite elem_of_cons; tauto). lia.
Qed.

Lemma concat_length_le {A B} (f : string → list A) (g : string → list B)
    (names : list string) :
  (∀ n, length (f n) ≤ length (g n))%nat →
  (length (concat (f <$> names)) ≤ length (concat (g <$> names)))%nat.
Proof.
  intros Hfg. induction names as [|n names IH]; [done|].
  rewrite !fmap_cons. cbn [concat]. rewrite !length_app.
  specialize (Hfg n). lia.
Qed.

(** C5. The cleaned series of a game is never longer than its series in
    the input, and the cleaned frame is never longer than the input frame. *)
Theorem clean_never_grows
    (to_datetime : string → option Z) (min_avg_players : float)
    (min_consecutive_months : Z) (df : list Observation) :
  (∀ name,
     length (cleaned_rows name
               (clean_game_data to_datetime df min_avg_players
                  min_consecutive_months))
     ≤ length (game_rows name df))%nat
  ∧ (length (clean_game_data to_datetime df min_avg_players
               min_consecutive_months)
     ≤ length df)%nat.
Proof.
  split.
  - intros name. rewrite cleaned_rows_game. apply clean_one_game_length.
  - rewrite clean_game_data_concat.
    etrans; [apply (concat_length_le _ (λ n, game_rows n df))|].
    + intros n. apply clean_one_game_length.
    + etrans; [apply game_rows_lengths, NoDup_unique|]. apply length_filter.
Qed.

(** ** Rows without a date *)







(** ** Cleaning twice *)

Section Twice.

Variable to_datetime : string → option Z.
Variable min_avg_players : float.
Variable min_consecutive_months : Z.
Hypothesis months_positive : 1 ≤ min_consecutive_months.

Local Abbreviation clean_one :=
  (λ game_data, clean_one_game to_datetime game_data
                  min_avg_players min_consecutive_months).
Local Abbreviation scan :=
  (find_meaningful_start min_avg_players min_consecutive_months).




(** With a length of at least one, a game that has rows keeps some. *)
Lemma clean_one_game_nonempty game_data :
  game_data ≠ [] → clean_one game_data ≠ [].
Proof.
  intros Hne Hnil. apply (f_equal length) in Hnil. revert Hnil.
  unfold clean_one_game. rewrite scan_zero.
  assert (length (sorted_game_data to_datetime game_data) ≠ 0%nat) as Hlen.
  { rewrite sorted_game_data_length. by destruct game_data. }
  destruct (first_reach _ _ _) as [i|] eqn:Hfirst; simpl; [|done].
  apply first_reach_Some in Hfirst as (Hi & _ & _).
  rewrite iloc_from_nonneg by lia. rewrite length_drop. lia.
Qed.


End Twice.




(** ** The example of the specification *)

(** C2. A frame of one game whose rows are in calendar order with the
    average players 0, 0, 600, 700, 400, 800, 900, 900, cleaned with the
    threshold 500 and two consecutive months, comes back from its index 2
    on: the observations with 600, 700, 400, 800, 900, 900. *)
Theorem clean_example_series
    (to_datetime : string → option Z) (df : list Observation)
    (name : string) :
  Forall (λ o, game_name o = name) df →
  Sorted date_ordered (assign_date to_datetime <$> df) →
  avg_players <$> df = [0; 0; 600; 700; 400; 800; 900; 900]%float →
  clean_game_data to_datetime df 500 2
  = drop 2 (assign_date to_datetime <$> df)
  ∧ (λ r : Row, avg_players r) <$> clean_game_data to_datetime df 500 2
    = [600; 700; 400; 800; 900; 900]%float.
Proof.
  intros Hname Hsorted Havg.
  assert (clean_game_data to_datetime df 500 2
          = drop 2 (assign_date to_datetime <$> df)) as Hclean.
  { rewrite (clean_game_data_single _ _ _ name) by done.
    unfold clean_one_game, sorted_game_data.
    rewrite sort_values_of_sorted by done.
    destruct df as [|o1 [|o2 [|o3 [|o4 [|o5 [|o6 [|o7 [|o8 [|o9 df]]]]]]]]];
      try discriminate Havg.
    injection Havg as H1 H2 H3 H4 H5 H6 H7 H8.
    cbn [fmap list_fmap find_meaningful_start]. unfold meets, assign_date.
    cbn [obs avg_players]. rewrite H1, H2, H3, H4. reflexivity. }
  split; [done|]. rewrite Hclean.
  rewrite <- fmap_drop, <- list_fmap_compose.
  change ((λ r : Row, avg_players r) ∘ assign_date to_datetime)
    with avg_players.
  rewrite fmap_drop. by rewrite Havg.
Qed.

Lemma clean_example_series_witness :
  clean_game_data month_year_to_datetime example_series 500 2
  = drop 2 (assign_date month_year_to_datetime <$> example_series)
  ∧ (λ r : Row, avg_players r)
      <$> clean_game_data month_year_to_datetime example_series 500 2
    = [600; 700; 400; 800; 900; 900]%float.
Proof.
  apply (clean_example_series month_year_to_datetime example_series
           "Warframe").
  - repeat constructor.
  - repeat constructor.
  - reflexivity.
Defined.

(** ** Games are told apart by name *)

Lemma concat_fmap {A B} (g : A → B) (ls : list (list A)) :
  concat ((λ l : list A, g <$> l) <$> ls) = g <$> concat ls.
Proof.
  induction ls as [|l ls IH]; [done|].
  rewrite !fmap_cons. cbn [concat]. by rewrite fmap_app, IH.
Qed.

Section Relabel.

Variable to_datetime : string → option Z.
Variable min_avg_players : float.
Variable min_consecutive_months : Z.
Variable f : Z → Z.

Lemma insert_by_date_with_appid r l :
  insert_by_date (row_with_appid f r) (row_with_appid f <$> l)
  = row_with_appid f <$> insert_by_date r l.
Proof.
  induction l as [|y l IH]; [done|].
  rewrite fmap_cons. cbn [insert_by_date row_with_appid date].
  destruct (date_le (date r) (date y)); [done|].
  rewrite fmap_cons. f_equal. apply IH.
Qed.

Lemma sort_values_with_appid l :
  sort_values (row_with_appid f <$> l) = row_with_appid f <$> sort_values l.
Proof.
  induction l as [|r l IH]; [done|].
  rewrite fmap_cons. cbn [sort_values foldr]. fold (sort_values l).
  fold (sort_values (row_with_appid f <$> l)).
  by rewrite IH, insert_by_date_with_appid.
Qed.

Lemma scan_with_appid l : ∀ idx count,
  find_meaningful_start min_avg_players min_consecutive_months
    (row_with_appid f <$> l) idx count
  = find_meaningful_start min_avg_players min_consecutive_months
      l idx count.
Proof.
  induction l as [|r l IH]; intros idx count; [done|].
  rewrite fmap_cons. cbn [find_meaningful_start].
  change (meets min_avg_players (row_with_appid f r))
    with (meets min_avg_players r).
  by rewrite !IH.
Qed.

Lemma iloc_from_fmap (g : Row → Row) start l :
  iloc_from start (g <$> l) = g <$> iloc_from start l.
Proof.
  unfold iloc_from. rewrite length_fmap.
  destruct (start <? 0); by rewrite fmap_drop.
Qed.

Lemma clean_one_game_with_appid game_data :
  clean_one_game to_datetime (with_appid f <$> game_data)
    min_avg_players min_consecutive_months
  = row_with_appid f
      <$> clean_one_game to_datetime game_data
            min_avg_players min_consecutive_months.
Proof.
  unfold clean_one_game, sorted_game_data.
  rewrite <- list_fmap_compose.
  change (assign_date to_datetime ∘ with_appid f)
    with (row_with_appid f ∘ assign_date to_datetime).
  rewrite list_fmap_compose, sort_values_with_appid, scan_with_appid.
  destruct (find_meaningful_start _ _ _ _ _); [|done].
  apply iloc_from_fmap.
Qed.

Lemma clean_game_data_with_appid df :
  clean_game_data to_datetime (with_appid f <$> df)
    min_avg_players min_consecutive_months
  = row_with_appid f
      <$> clean_game_data to_datetime df
            min_avg_players min_consecutive_months.
Proof.
  rewrite !clean_game_data_concat, <- concat_fmap.
  rewrite <- !list_fmap_compose.
  change (game_name ∘ with_appid f) with game_name.
  f_equal. apply list_fmap_ext. intros _ n _. simpl.
  rewrite <- clean_one_game_with_appid. f_equal.
  unfold game_rows. by rewrite filter_fmap.
Qed.

End Relabel.

(** C10. The Cleaner tells games apart by [game_name], never by [appid]:
    all the rows of the input that carry a name, whatever their [appid],
    are sorted and cleaned as one series, and the rows of the output with
    that name are that series from one cut index on; changing the [appid]s
    of the input changes nothing but the [appid]s of the output. *)
Theorem clean_groups_by_name
    (to_datetime : string → option Z) (min_avg_players : float)
    (min_consecutive_months : Z) (df : list Observation) :
  (∀ name,
     cleaned_rows name
       (clean_game_data to_datetime df min_avg_players
          min_consecutive_months)
     = clean_one_game to_datetime (game_rows name df)
         min_avg_players min_consecutive_months)
  ∧ (∀ name, ∃ cut : nat,
       cleaned_rows name
         (clean_game_data to_datetime df min_avg_players
            min_consecutive_months)
       = drop cut (sorted_game_data to_datetime (game_rows name df)))
  ∧ (∀ f : Z → Z,
       clean_game_data to_datetime (with_appid f <$> df)
         min_avg_players min_consecutive_months
       = row_with_appid f
           <$> clean_game_data to_datetime df
                 min_avg_players min_consecutive_months).
Proof.
  split; [|split].
  - intros name. apply cleaned_rows_game.
  - intros name. rewrite cleaned_rows_game. apply clean_one_game_drop.
  - intros f. apply clean_game_data_with_appid.
Qed.

(** In [shared_name_frame] the applications 1 and 2 are both called "Twin":
    their rows are sorted together and cut once, at the February row of
    application 2. *)
Example clean_shared_name_frame :
  (λ r : Row, (appid r, month r))
    <$> cleaned_rows "Twin"
          (clean_game_data month_year_to_datetime shared_name_frame 500 2)
  = [(2, "February 2020"); (1, "March 2020"); (2, "April 2020")].
Proof. vm_compute. reflexivity. Qed.

(** * Properties of the Store Loader *)

(** ** Splitting a label *)

Lemma append_cons (x : ascii) (a b : string) :
  String x a +:+ b = String x (a +:+ b).
Proof. reflexivity. Qed.

Lemma append_assoc (a b c : string) : (a +:+ b) +:+ c = a +:+ (b +:+ c).
Proof.
  induction a as [|x a IH]; [done|]. by rewrite !append_cons, IH.
Qed.

Lemma append_empty_r (a : string) : a +:+ "" = a.
Proof. induction a as [|x a IH]; [done|]. by rewrite append_cons, IH. Qed.

Lemma split_from_all_space (s : string) :
  Py.rstrip s = "" → Py.split_from "" s = [].
Proof.
  induction s as [|c s IH]; simpl; [done|].
  destruct (Py.is_empty (Py.rstrip s)) eqn:Er; simpl; [|done].
  destruct (Py.isspace c); simpl; [|done]. intros _. apply IH.
  by destruct (Py.rstrip s).
Qed.

Lemma split_from_rstrip (s : string) : ∀ word,
  Py.split_from word (Py.rstrip s) = Py.split_from word s.
Proof.
  induction s as [|c s IH]; intros word; simpl; [done|].
  destruct (Py.is_empty (Py.rstrip s) && Py.isspace c) eqn:E.
  - apply andb_true_iff in E as [Er Ec]. rewrite Ec. simpl.
    rewrite split_from_all_space by (by destruct (Py.rstrip s)).
    by destruct (Py.is_empty word).
  - simpl. destruct (Py.isspace c); by rewrite IH.
Qed.

Lemma split_lstrip (s : string) : Py.split (Py.lstrip s) = Py.split s.
Proof.
  unfold Py.split. induction s as [|c s IH]; simpl; [done|].
  destruct (Py.isspace c) eqn:Ec; [done|]. simpl. by rewrite Ec.
Qed.

(** [s.strip().split()] is [s.split()]. *)
Lemma split_strip (s : string) : Py.split (Py.strip s) = Py.split s.
Proof.
  unfold Py.strip, Py.split at 1. rewrite split_from_rstrip.
  apply split_lstrip.
Qed.

(** A word without whitespace is read as a whole. *)
Lemma split_from_word (w : string) : ∀ word rest,
  Py.no_space w = true →
  Py.split_from word (w +:+ rest) = Py.split_from (word +:+ w) rest.
Proof.
  induction w as [|c w IH]; intros word rest Hw.
  - by rewrite append_empty_r.
  - simpl in Hw. apply andb_true_iff in Hw as [Hc Hw].
    apply negb_true_iff in Hc.
    rewrite append_cons. cbn [Py.split_from]. rewrite Hc, IH by done.
    by rewrite append_assoc.
Qed.

Lemma split_word_year (w : string) :
  Py.no_space w = true → w ≠ "" →
  Py.split (w +:+ " 2025") = [w; "2025"].
Proof.
  intros Hw Hne. unfold Py.split. rewrite split_from_word by done.
  change ("" +:+ w) with w. cbn. by destruct w.
Qed.

Lemma prefix_cons (a b : ascii) (s t : string) :
  String.prefix (String a s) (String b t)
  = if Ascii.ascii_dec a b then String.prefix s t else false.
Proof. reflexivity. Qed.

(** A label of one word and a year has a single space, too few for the
    marker of the rolling window. *)
Lemma word_year_not_rolling (w : string) :
  Py.no_space w = true →
  Py.contains "Last 30 Days" (w +:+ " 2025") = false.
Proof.
  induction w as [|c w IH]; intros Hw; [done|].
  cbn [Py.no_space] in Hw. apply andb_true_iff in Hw as [Hc Hw].
  rewrite append_cons. cbn [Py.contains]. rewrite (IH Hw), orb_false_r.
  clear IH.
  rewrite prefix_cons. destruct (Ascii.ascii_dec _ _) as [<-|_]; [|done].
  destruct w as [|c2 w]; [done|]. rewrite append_cons, prefix_cons.
  cbn [Py.no_space] in Hw. apply andb_true_iff in Hw as [_ Hw].
  destruct (Ascii.ascii_dec _ _) as [<-|_]; [|done].
  destruct w as [|c3 w]; [done|]. rewrite append_cons, prefix_cons.
  cbn [Py.no_space] in Hw. apply andb_true_iff in Hw as [_ Hw].
  destruct (Ascii.ascii_dec _ _) as [<-|_]; [|done].
  destruct w as [|c4 w]; [done|]. rewrite append_cons, prefix_cons.
  cbn [Py.no_space] in Hw. apply andb_true_iff in Hw as [_ Hw].
  destruct (Ascii.ascii_dec _ _) as [<-|_]; [|done].
  destruct w as [|c5 w]; [done|]. rewrite append_cons, prefix_cons.
  cbn [Py.no_space] in Hw. apply andb_true_iff in Hw as [Hc5 _].
  destruct (Ascii.ascii_dec _ _) as [<-|_]; [|done].
  done.
Qed.

(** ** The month-label parser *)

(** C7, as stated, fails: ["Sept 2024"] is not a month name with a year and
    has no rolling-window marker, yet it is not mapped to [(None, None)]:
    the lookup falls back to month 1. *)
Lemma abbreviated_month_is_not_null :
  month_mapping !! "Sept" = None
  ∧ Py.contains "Last 30 Days" "Sept 2024" = false
  ∧ parse_month_year 2026 11 "Sept 2024" = (Some 2024, Some 1)
  ∧ parse_month_year 2026 11 "Sept 2024" ≠ (None, None).
Proof. repeat split; try (vm_compute; reflexivity). vm_compute. congruence. Qed.

(** C7, amended. The parser maps ["July 2025"] to (2025, 7) and any label
    containing ["Last 30 Days"] to the current year and month. Any other
    label is mapped to [(None, None)] exactly when it has fewer than two
    whitespace-separated parts or its second part is not an integer
    literal; otherwise it is mapped to the integer of its second part and to
    the month number of its first part, which is 1 when the first part is
    not one of the twelve month names. *)
Theorem parse_month_year_cases (now_year now_month : Z) :
  parse_month_year now_year now_month "July 2025" = (Some 2025, Some 7)
  ∧ (∀ label,
       Py.contains "Last 30 Days" label = true →
       parse_month_year now_year now_month label
       = (Some now_year, Some now_month))
  ∧ (∀ label,
       Py.contains "Last 30 Days" label = false →
       parse_month_year now_year now_month label = (None, None)
       ↔ (length (Py.split label) < 2)%nat
         ∨ ∃ first second rest,
             Py.split label = first :: second :: rest
             ∧ Py.int second = None)
  ∧ (∀ label first second rest year,
       Py.contains "Last 30 Days" label = false →
       Py.split label = first :: second :: rest →
       Py.int second = Some year →
       parse_month_year now_year now_month label
       = (Some year, Some (default 1 (month_mapping !! first))))
  ∧ (∀ word,
       Py.no_space word = true → word ≠ "" →
       month_mapping !! word = None →
       parse_month_year now_year now_month (word +:+ " 2025")
       = (Some 2025, Some 1)).
Proof.
  assert (∀ label first second rest year,
            Py.contains "Last 30 Days" label = false →
            Py.split label = first :: second :: rest →
            Py.int second = Some year →
            parse_month_year now_year now_month label
            = (Some year, Some (default 1 (month_mapping !! first))))
    as Hparts.
  { intros label first second rest year Hroll Hsplit Hint.
    unfold parse_month_year. rewrite Hroll, split_strip, Hsplit.
    cbn [length Nat.leb]. by rewrite Hint. }
  split; [vm_compute; reflexivity|]. split; [|split; [|split; [done|]]].
  - intros label Hroll. unfold parse_month_year. by rewrite Hroll.
  - intros label Hroll. unfold parse_month_year.
    rewrite Hroll, split_strip.
    destruct (Py.split label) as [|first [|second rest]]; cbn [length Nat.leb].
    + split; [intros _; left; lia | done].
    + split; [intros _; left; simpl; lia | done].
    + destruct (Py.int second) as [year|] eqn:Hint.
      * split; [done|]. intros [Hlen|(f' & s' & r' & Heq & Hnone)].
        -- simpl in Hlen. lia.
        -- injection Heq as <- <- <-. congruence.
      * split; [|done]. intros _. right. by exists first, second, rest.
  - intros word Hword Hne Hmonth.
    rewrite (Hparts _ word "2025" [] 2025).
    + by rewrite Hmonth.
    + by apply word_year_not_rolling.
    + by apply split_word_year.
    + vm_compute. reflexivity.
Qed.

Lemma parse_month_year_cases_witness :
  Py.no_space "Sept" = true
  ∧ month_mapping !! "Sept" = None
  ∧ parse_month_year 2026 11 "Sept 2025" = (Some 2025, Some 1).
Proof.
  split; [reflexivity|]. split; [vm_compute; reflexivity|].
  destruct (parse_month_year_cases 2026 11) as (_ & _ & _ & _ & Hword).
  apply (Hword "Sept"); [reflexivity | discriminate | vm_compute; reflexivity].
Defined.

(** ** Running the import *)







(** ** What the import leaves in the store *)







(** On a new database [create_database_schema] alone gives the stated
    schema. *)
Lemma schema_statements_stated : has_stated_schema (schema_statements empty_database).
Proof.
  split; [vm_compute; reflexivity|]. split; [vm_compute; reflexivity|].
  intros col Hcol.
  repeat (apply elem_of_cons in Hcol as [->|Hcol]);
    [exists "idx_appid" | exists "idx_year" | exists "idx_month"
     | exists "idx_avg_players" | by apply elem_of_nil in Hcol];
    vm_compute; reflexivity.
Qed.

(** Importing the example into a new database: two bare columns in [games],
    and no index at all. *)
Example import_example_series :
  let db := import_statements example_series (2026, 11) empty_database in
  (λ t, col_name <$> tbl_columns t) <$> db_tables db !! "games"
  = Some ["appid"; "game_name"]
  ∧ tbl_rows <$> db_tables db !! "games"
    = Some [[VInt 230410; VText "Warframe"]]
  ∧ length <$> (tbl_rows <$> db_tables db !! "player_history") = Some 8%nat
  ∧ db_indexes db = ∅.
Proof. repeat split; vm_compute; reflexivity. Qed.



(** ** A missing input file *)

(** C8, as stated, fails: without its CSV file [import_csv_to_sqlite] prints
    its message and returns to its caller; it does not raise [SystemExit],
    and the script goes on. *)
Lemma import_missing_csv_does_not_exit :
  let w := {| files := ∅; clock := (2026, 11); stdout := [] |} in
  import_csv_to_sqlite "steam_top100_with_names.csv"
    "steam_top100_with_names.db" w
  = (Returned (),
     {| files := ∅; clock := (2026, 11);
        stdout := ["❌ CSV file not found: steam_top100_with_names.csv"] |})
  ∧ (import_csv_to_sqlite "steam_top100_with_names.csv"
       "steam_top100_with_names.db" w).1 ≠ Raised SystemExit.
Proof. split; [vm_compute; reflexivity|]. vm_compute. congruence. Qed.

(** C8, amended. Without its CSV file [import_csv_to_sqlite] prints a
    user-facing message and returns at once: nothing is read, no database
    file is created or changed, and the process does not exit there. The
    process exits, after a message, when the script finds no candidate CSV
    file in the directory at startup. *)
Theorem import_missing_csv_returns
    (csv_file db_file : string) (w : world) :
  (files w !! csv_file = None →
   import_csv_to_sqlite csv_file db_file w
   = (Returned (),
      {| files := files w; clock := clock w;
         stdout := stdout w ++ ["❌ CSV file not found: " +:+ csv_file] |}))
  ∧ (List.filter
       (λ f, Py.endswith f ".csv" && Py.contains "steam" (Py.lower f))
       (map_to_list (files w)).*1 = [] →
     find_csv_files w
     = (Raised SystemExit,
        {| files := files w; clock := clock w;
           stdout :=
             stdout w
             ++ ["❌ No Steam CSV files found in current directory"] |})).
Proof.
  split.
  - intros Hmissing. unfold import_csv_to_sqlite, bind, os_path_exists.
    rewrite bool_decide_eq_false_2; [done|].
    rewrite Hmissing. by intros [? ?].
  - intros Hnone. unfold find_csv_files, bind at 1, os_listdir.
    by rewrite Hnone.
Qed.

Lemma import_missing_csv_returns_witness :
  import_csv_to_sqlite "steam_top100_with_names.csv"
    "steam_top100_with_names.db"
    {| files := {[ "notes.txt" := CsvFile [] ]}; clock := (2026, 11);
       stdout := [] |}
  = (Returned (),
     {| files := {[ "notes.txt" := CsvFile [] ]}; clock := (2026, 11);
        stdout := ["❌ CSV file not found: steam_top100_with_names.csv"] |})
  ∧ find_csv_files
      {| files := {[ "notes.txt" := CsvFile [] ]}; clock := (2026, 11);
         stdout := [] |}
    = (Raised SystemExit,
       {| files := {[ "notes.txt" := CsvFile [] ]}; clock := (2026, 11);
          stdout := ["❌ No Steam CSV files found in current directory"] |}).
Proof.
  destruct (import_missing_csv_returns "steam_top100_with_names.csv"
              "steam_top100_with_names.db"
              {| files := {[ "notes.txt" := CsvFile [] ]};
                 clock := (2026, 11); stdout := [] |}) as [Himport Hexit].
  split.
  - apply Himport. vm_compute. reflexivity.
  - apply Hexit. vm_compute. reflexivity.
Defined.

(** * Further properties of the Cleaner *)

(** ** What the cleaned frame is made of *)

Lemma concat_submseteq {A} (f g : string → list A) (names : list string) :
  (∀ n, f n ⊆+ g n) → concat (f <$> names) ⊆+ concat (g <$> names).
Proof.
  intros Hfg. induction names as [|n names IH]; [done|].
  rewrite !fmap_cons. cbn [concat]. by apply submseteq_app.
Qed.

(** The rows of the games [names], game after game, are the rows of the
    frame whose name is one of [names], in another order. *)
Lemma game_rows_partition (df : list Observation) (names : list string) :
  NoDup names →
  concat ((λ n, game_rows n df) <$> names)
  ≡ₚ filter (λ o, game_name o ∈ names) df.
Proof.
  induction 1 as [|n names Hn Hnames IH].
  { symmetry. apply Permutation_nil_r, filter_none, Forall_forall.
    intros o _ Ho. by apply elem_of_nil in Ho. }
  rewrite fmap_cons. cbn [concat]. rewrite IH. clear IH. unfold game_rows.
  induction df as [|o df IH]; [done|].
  rewrite !filter_cons.
  destruct (decide (game_name o = n)) as [Heq|Hne].
  - rewrite decide_False by (by rewrite Heq).
    rewrite decide_True by (apply elem_of_cons; by left).
    simpl. by rewrite IH.
  - destruct (decide (game_name o ∈ names)) as [Hin|Hnin].
    + rewrite decide_True by (apply elem_of_cons; by right).
      rewrite <- Permutation_middle. by rewrite IH.
    + rewrite decide_False by (rewrite elem_of_cons; tauto). done.
Qed.

Lemma game_rows_cover (df : list Observation) :
  concat ((λ n, game_rows n df) <$> unique (game_name <$> df)) ≡ₚ df.
Proof.
  rewrite game_rows_partition by apply NoDup_unique.
  rewrite filter_all; [done|]. apply Forall_forall. intros o Ho.
  apply elem_of_unique. by apply list_elem_of_fmap_2.
Qed.

Lemma clean_one_game_submseteq to_datetime game_data thr months :
  clean_one_game to_datetime game_data thr months
  ⊆+ assign_date to_datetime <$> game_data.
Proof.
  destruct (clean_one_game_drop to_datetime thr months game_data) as [k ->].
  etrans; [apply submseteq_drop|]. by rewrite sorted_game_data_perm.
Qed.

(** X1. Cleaning only removes rows: the cleaned frame is, up to the order
    of its rows, a part of the input frame with the [date] column added.
    No row is invented, changed or repeated. *)
Theorem clean_only_removes_rows
    (to_datetime : string → option Z) (min_avg_players : float)
    (min_consecutive_months : Z) (df : list Observation) :
  clean_game_data to_datetime df min_avg_players min_consecutive_months
  ⊆+ assign_date to_datetime <$> df
  ∧ obs <$> clean_game_data to_datetime df min_avg_players
              min_consecutive_months
    ⊆+ df.
Proof.
  assert (clean_game_data to_datetime df min_avg_players
            min_consecutive_months
          ⊆+ assign_date to_datetime <$> df) as Hsub.
  { rewrite clean_game_data_concat.
    etrans; [apply (concat_submseteq _
                      (λ n, assign_date to_datetime <$> game_rows n df))|].
    - intros n. apply clean_one_game_submseteq.
    - apply Permutation_submseteq.
      transitivity
        (assign_date to_datetime
           <$> concat ((λ n, game_rows n df) <$> unique (game_name <$> df))).
      + by rewrite <- concat_fmap, <- list_fmap_compose.
      + by rewrite game_rows_cover. }
  split; [done|].
  apply (fmap_submseteq obs) in Hsub.
  rewrite <- list_fmap_compose in Hsub.
  by rewrite (fmap_fixed (obs ∘ assign_date to_datetime)) in Hsub
    by (by apply Forall_forall).
Qed.

(** X2. The cleaned frame comes game by game, in the order in which the
    names first appear in the input, and the rows of each game are in
    calendar order with the rows without a date last. *)
Theorem clean_output_is_grouped_and_sorted
    (to_datetime : string → option Z) (min_avg_players : float)
    (min_consecutive_months : Z) (df : list Observation) :
  let cleaned :=
    clean_game_data to_datetime df min_avg_players min_consecutive_months in
  cleaned
  = concat ((λ name, cleaned_rows name cleaned) <$> unique (game_name <$> df))
  ∧ ∀ name, Sorted date_ordered (cleaned_rows name cleaned).
Proof.
  intros cleaned. split.
  - unfold cleaned at 1. rewrite clean_game_data_concat. f_equal.
    apply list_fmap_ext. intros _ n _. unfold cleaned.
    by rewrite cleaned_rows_game.
  - intros name. unfold cleaned. rewrite cleaned_rows_game.
    destruct (clean_one_game_drop to_datetime min_avg_players
                min_consecutive_months (game_rows name df)) as [k ->].
    apply Sorted_drop, sort_values_sorted.
Qed.

(** X3. With [min_consecutive_months] of at least one no game is lost:
    the cleaned frame has the same game names as the input, in the same
    order of first appearance, and at least one row for each. *)
Theorem clean_keeps_every_game
    (to_datetime : string → option Z) (min_avg_players : float)
    (min_consecutive_months : Z) (df : list Observation) :
  1 ≤ min_consecutive_months →
  let cleaned :=
    clean_game_data to_datetime df min_avg_players min_consecutive_months in
  unique ((λ r : Row, game_name r) <$> cleaned) = unique (game_name <$> df)
  ∧ ∀ o, o ∈ df → cleaned_rows (game_name o) cleaned ≠ [].
Proof.
  intros Hm cleaned.
  assert (∀ n, n ∈ unique (game_name <$> df) →
               clean_one_game to_datetime (game_rows n df) min_avg_players
                 min_consecutive_months ≠ []) as Hne.
  { intros n Hn. apply clean_one_game_nonempty; [done|].
    apply elem_of_unique, list_elem_of_fmap in Hn as (o & -> & Ho).
    intros Hnil. assert (o ∈ game_rows (game_name o) df) as Hin.
    { unfold game_rows. by apply list_elem_of_filter. }
    rewrite Hnil in Hin. by apply elem_of_nil in Hin. }
  split.
  - unfold cleaned. rewrite clean_game_data_concat.
    apply (unique_blocks (λ r : Row, game_name r)
             (λ n, clean_one_game to_datetime (game_rows n df)
                     min_avg_players min_consecutive_months)).
    + apply NoDup_unique.
    + intros n. apply clean_one_game_name.
    + done.
  - intros o Ho. unfold cleaned. rewrite cleaned_rows_game. apply Hne.
    apply elem_of_unique. by apply list_elem_of_fmap_2.
Qed.

Lemma clean_keeps_every_game_witness :
  unique ((λ r : Row, game_name r)
            <$> clean_game_data month_year_to_datetime shared_name_frame
                  500 2)
  = unique (game_name <$> shared_name_frame).
Proof.
  apply (clean_keeps_every_game month_year_to_datetime 500 2
           shared_name_frame). lia.
Defined.

(** X4. Games are cleaned independently: the rows of a game in the cleaned
    frame are what cleaning the rows of that game alone gives, so they do
    not depend on the other games of the frame nor on how the rows of the
    games are interleaved. *)
Theorem clean_games_independently
    (to_datetime : string → option Z) (min_avg_players : float)
    (min_consecutive_months : Z) (df : list Observation) (name : string) :
  cleaned_rows name
    (clean_game_data to_datetime df min_avg_players min_consecutive_months)
  = clean_game_data to_datetime (game_rows name df)
      min_avg_players min_consecutive_months
  ∧ ∀ df', game_rows name df' = game_rows name df →
      cleaned_rows name
        (clean_game_data to_datetime df' min_avg_players
           min_consecutive_months)
      = cleaned_rows name
          (clean_game_data to_datetime df min_avg_players
             min_consecutive_months).
Proof.
  split.
  - rewrite cleaned_rows_game.
    rewrite (clean_game_data_single _ _ _ name); [done|].
    apply Forall_forall. intros o Ho.
    by apply list_elem_of_filter in Ho as [? _].
  - intros df' Hrows. by rewrite !cleaned_rows_game, Hrows.
Qed.

Lemma clean_games_independently_witness :
  cleaned_rows "Twin"
    (clean_game_data month_year_to_datetime
       (observation 3 "Other" "January 2020" 5
        :: game_rows "Twin" shared_name_frame) 500 2)
  = cleaned_rows "Twin"
      (clean_game_data month_year_to_datetime shared_name_frame 500 2).
Proof.
  apply (clean_games_independently month_year_to_datetime 500 2
           shared_name_frame "Twin").
  vm_compute. reflexivity.
Defined.

(** ** Where the cut falls *)

Lemma find_seq_exists (f : nat → bool) n a j :
  (a ≤ j < a + n)%nat → f j = true →
  ∃ i, List.find f (seq a n) = Some i ∧ (i ≤ j)%nat.
Proof.
  intros Hj Hfj. destruct (List.find f (seq a n)) as [i|] eqn:Hfind.
  - exists i. split; [done|].
    apply find_seq_Some in Hfind as (_ & _ & Hmin).
    destruct (decide (i ≤ j)%nat) as [|Hgt]; [done|].
    rewrite (Hmin j) in Hfj by lia. done.
  - rewrite (find_seq_None _ _ _ Hfind j Hj) in Hfj. done.
Qed.

Section Cut.

Variable min_avg_players : float.
Variable min_consecutive_months : Z.
Hypothesis months_positive : 1 ≤ min_consecutive_months.

Local Abbreviation scan :=
  (find_meaningful_start min_avg_players min_consecutive_months).
Local Abbreviation counter := (foldl (counter_step min_avg_players) 0).

Lemma counter_app_meets pre run :
  Forall (λ r, meets min_avg_players r = true) run →
  counter (pre ++ run) = counter pre + Z.of_nat (length run).
Proof.
  induction run as [|r run IH] using rev_ind; intros Hrun.
  - rewrite app_nil_r. simpl. lia.
  - apply Forall_app in Hrun as [Hrun Hr].
    apply Forall_cons in Hr as [Hr _]. rewrite app_assoc, counter_snoc. rewrite (IH Hrun), length_app.
    unfold counter_step at 1. rewrite Hr. simpl. lia.
Qed.

(** A window of rows meeting the threshold that is long enough makes the
    counter reach the length on its last row. *)
Lemma window_reaches front run rest :
  Forall (λ r, meets min_avg_players r = true) run →
  min_consecutive_months ≤ Z.of_nat (length run) →
  reaches min_avg_players min_consecutive_months (front ++ run ++ rest)
    (length front + length run - 1) = true.
Proof.
  intros Hrun Hlen. unfold reaches, run_length.
  assert (length run ≠ 0%nat) as Hne by lia.
  destruct (lookup_lt_is_Some_2 run (length run - 1)) as [r Hr]; [lia|].
  replace (length front + length run - 1)%nat
    with (length front + (length run - 1))%nat by lia.
  rewrite lookup_app_r by lia.
  replace (length front + (length run - 1) - length front)%nat
    with (length run - 1)%nat by lia.
  rewrite lookup_app_l by lia. rewrite Hr.
  rewrite Forall_forall in Hrun.
  rewrite (Hrun r) by (by eapply list_elem_of_lookup_2).
  replace (S (length front + (length run - 1)))
    with (length (front ++ run)) by (rewrite length_app; lia).
  rewrite app_assoc, take_app_length.
  rewrite counter_app_meets by (by apply Forall_forall).
  pose proof (counter_nonneg min_avg_players front).
  simpl. apply Z.leb_le. lia.
Qed.

(** The counter at a position depends on the rows up to it only. *)
Lemma reaches_app_l front rest j :
  (j < length front)%nat →
  reaches min_avg_players min_consecutive_months (front ++ rest) j
  = reaches min_avg_players min_consecutive_months front j.
Proof.
  intros Hj. unfold reaches, run_length.
  rewrite lookup_app_l by done. by rewrite take_app_le by lia.
Qed.

(** The shape of a series that is cut: rows that hold no run, ended by a
    row below the threshold if there is any, then the run that stops the
    loop, then the rest. *)
Lemma scan_Some_shape l start :
  scan l 0 0 = Some start →
  ∃ front run rest,
    l = front ++ run ++ rest
    ∧ Z.of_nat (length front) = start
    ∧ Z.of_nat (length run) = min_consecutive_months
    ∧ Forall (λ r, meets min_avg_players r = true) run
    ∧ counter front = 0
    ∧ ∀ j, (j < length front + length run - 1)%nat →
           reaches min_avg_players min_consecutive_months l j = false.
Proof.
  rewrite scan_zero.
  destruct (first_reach _ _ l) as [i|] eqn:Hfirst; [|done].
  intros [= <-].
  destruct (first_reach_block _ _ _ _ months_positive Hfirst)
    as (front & run & Hl & Hfront & Hrun & Hall).
  pose proof (first_reach_exact _ _ _ _ months_positive Hfirst) as Hexact.
  apply first_reach_Some in Hfirst as (Hi & _ & Hmin).
  exists front, run, (drop (S i) l).
  split; [done|]. split; [lia|]. split; [done|]. split; [done|]. split.
  - unfold run_length in Hexact.
    assert (take (S i) l = front ++ run) as Htake.
    { rewrite Hl, app_assoc.
      replace (S i) with (length (front ++ run))
        by (rewrite length_app; lia).
      by rewrite take_app_length. }
    rewrite Htake, counter_app_meets in Hexact by done. lia.
  - intros j Hj. apply Hmin. lia.
Qed.

End Cut.

(** X5. With [min_consecutive_months] of at least one, a series that is cut
    starts, after cleaning, with the run that was looked for: its first
    [min_consecutive_months] rows are all at or above the threshold, and the
    cut index is a position of the series. *)
Theorem cleaned_series_starts_with_run
    (to_datetime : string → option Z) (min_avg_players : float)
    (min_consecutive_months : Z) (df : list Observation) (name : string)
    (start : Z) :
  let game_data := sorted_game_data to_datetime (game_rows name df) in
  let cleaned :=
    cleaned_rows name
      (clean_game_data to_datetime df min_avg_players
         min_consecutive_months) in
  1 ≤ min_consecutive_months →
  find_meaningful_start min_avg_players min_consecutive_months
    game_data 0 0 = Some start →
  0 ≤ start < Z.of_nat (length game_data)
  ∧ min_consecutive_months ≤ Z.of_nat (length cleaned)
  ∧ Forall (λ r, meets min_avg_players r = true)
      (take (Z.to_nat min_consecutive_months) cleaned).
Proof.
  intros game_data cleaned Hm Hscan.
  destruct (scan_Some_shape _ _ Hm _ _ Hscan)
    as (front & run & rest & Hl & Hfront & Hrun & Hall & _ & _).
  assert (cleaned = run ++ rest) as ->.
  { unfold cleaned. rewrite cleaned_rows_game. unfold clean_one_game.
    fold game_data. rewrite Hscan, iloc_from_nonneg by lia.
    rewrite Hl. replace (Z.to_nat start) with (length front) by lia.
    by rewrite drop_app_length. }
  split; [rewrite Hl, !length_app; lia|].
  split; [rewrite length_app; lia|].
  by rewrite take_app_length' by lia.
Qed.

Lemma cleaned_series_starts_with_run_witness :
  Forall (λ r, meets 500 r = true)
    (take (Z.to_nat 2)
       (cleaned_rows "Warframe"
          (clean_game_data month_year_to_datetime example_series 500 2))).
Proof.
  apply (cleaned_series_starts_with_run month_year_to_datetime 500 2
           example_series "Warframe" 2); [lia | vm_compute; reflexivity].
Defined.

(** X6. With [min_consecutive_months] of at least one, the rows that a cut
    removes hold no run of [min_consecutive_months] consecutive rows at or
    above the threshold, and the last of them is below the threshold: the
    cut falls at the start of the first run. *)
Theorem removed_rows_hold_no_run
    (to_datetime : string → option Z) (min_avg_players : float)
    (min_consecutive_months : Z) (df : list Observation) (name : string)
    (start : Z) :
  let game_data := sorted_game_data to_datetime (game_rows name df) in
  let removed := take (Z.to_nat start) game_data in
  1 ≤ min_consecutive_months →
  find_meaningful_start min_avg_players min_consecutive_months
    game_data 0 0 = Some start →
  game_data
  = removed
    ++ cleaned_rows name
         (clean_game_data to_datetime df min_avg_players
            min_consecutive_months)
  ∧ has_run min_avg_players (Z.to_nat min_consecutive_months) removed = false
  ∧ ∀ r, last removed = Some r → meets min_avg_players r = false.
Proof.
  intros game_data removed Hm Hscan.
  destruct (scan_Some_shape _ _ Hm _ _ Hscan)
    as (front & run & rest & Hl & Hfront & Hrun & Hall & Hzero & Hmin).
  assert (removed = front) as ->.
  { unfold removed. rewrite Hl.
    replace (Z.to_nat start) with (length front) by lia.
    by rewrite take_app_length. }
  split; [|split].
  - rewrite cleaned_rows_game. unfold clean_one_game. fold game_data.
    rewrite Hscan, iloc_from_nonneg by lia.
    replace (Z.to_nat start) with (length front) by lia.
    rewrite Hl at 2. by rewrite drop_app_length.
  - destruct (has_run _ _ front) eqn:Hrun'; [exfalso|done].
    apply existsb_exists in Hrun' as (p & _ & Hwin).
    apply andb_true_iff in Hwin as [Hwin Hlen].
    apply Nat.eqb_eq in Hlen.
    set (window := take (Z.to_nat min_consecutive_months) (drop p front))
      in *.
    assert (front = take p front ++ window
                    ++ drop (Z.to_nat min_consecutive_months) (drop p front))
      as Hsplit by (unfold window; by rewrite !take_drop).
    assert (p + Z.to_nat min_consecutive_months ≤ length front)%nat as Hp.
    { apply (f_equal length) in Hsplit.
      rewrite !length_app, Hlen in Hsplit.
      assert (length (take p front) = p `min` length front)%nat
        by apply length_take.
      destruct (decide (p ≤ length front)%nat); [lia|].
      unfold window in Hlen. rewrite length_take, length_drop in Hlen. lia. }
    assert (reaches min_avg_players min_consecutive_months front
              (length (take p front) + length window - 1) = true) as Hreach.
    { rewrite Hsplit at 1. apply window_reaches; try lia.
      apply Forall_forall. intros r Hr.
      rewrite forallb_forall in Hwin. apply Hwin.
      by apply list_elem_of_In. }
    rewrite length_take, Hlen in Hreach.
    replace (p `min` length front)%nat with p in Hreach by lia.
    rewrite <- (reaches_app_l _ _ _ (run ++ rest)) in Hreach by lia.
    rewrite <- Hl in Hreach. rewrite Hmin in Hreach by lia. done.
  - intros r Hlast. destruct (meets min_avg_players r) eqn:Hr; [exfalso|done].
    apply last_Some in Hlast as [front' ->].
    rewrite counter_snoc in Hzero. unfold counter_step in Hzero at 1.
    rewrite Hr in Hzero.
    pose proof (counter_nonneg min_avg_players front'). lia.
Qed.

Lemma removed_rows_hold_no_run_witness :
  has_run 500 (Z.to_nat 2)
    (take (Z.to_nat 2)
       (sorted_game_data month_year_to_datetime
          (game_rows "Warframe" example_series))) = false.
Proof.
  apply (removed_rows_hold_no_run month_year_to_datetime 500 2
           example_series "Warframe" 2); [lia | vm_compute; reflexivity].
Defined.

(** ** The order of the input rows *)

Lemma date_le_trans a b c :
  date_le a b = true → date_le b c = true → date_le a c = true.
Proof.
  destruct a, b, c; simpl; try done. rewrite !Z.leb_le. lia.
Qed.

Lemma date_le_antisym a b :
  date_le a b = true → date_le b a = true → a = b.
Proof.
  destruct a, b; simpl; try done. rewrite !Z.leb_le. intros. f_equal. lia.
Qed.

Lemma sort_values_strongly_sorted l :
  StronglySorted date_ordered (sort_values l).
Proof.
  apply Sorted_StronglySorted; [|apply sort_values_sorted].
  intros x y z. apply date_le_trans.
Qed.

(** Two sorted lists with the same elements are equal when the order tells
    their elements apart. *)
Lemma strongly_sorted_perm_eq {A} (R : A → A → Prop) (l1 : list A) : ∀ l2,
  StronglySorted R l1 → StronglySorted R l2 → l1 ≡ₚ l2 →
  (∀ x y, x ∈ l1 → y ∈ l1 → R x y → R y x → x = y) →
  l1 = l2.
Proof.
  induction l1 as [|x l1 IH]; intros l2 H1 H2 Hperm Hanti.
  { by apply Permutation_nil_l in Hperm. }
  destruct l2 as [|y l2]; [by apply Permutation_nil_r in Hperm|].
  apply StronglySorted_inv in H1 as [H1 Hx].
  apply StronglySorted_inv in H2 as [H2 Hy].
  assert (x = y) as <-.
  { assert (x ∈ y :: l2) as Hxin
      by (rewrite <- Hperm; apply elem_of_cons; by left).
    assert (y ∈ x :: l1) as Hyin
      by (rewrite Hperm; apply elem_of_cons; by left).
    apply elem_of_cons in Hxin as [|Hxin]; [done|].
    apply elem_of_cons in Hyin as [|Hyin]; [done|].
    rewrite Forall_forall in Hx, Hy.
    apply Hanti; [apply elem_of_cons; by left | apply elem_of_cons; by right
                 | by apply Hx | by apply Hy]. }
  f_equal. apply IH; [done|done|by apply Permutation_cons_inv in Hperm|].
  intros a b Ha Hb. apply Hanti; apply elem_of_cons; by right.
Qed.

Lemma NoDup_fmap_eq {A B} (f : A → B) (l : list A) x y :
  NoDup (f <$> l) → x ∈ l → y ∈ l → f x = f y → x = y.
Proof.
  intros Hnd Hx Hy Hf.
  apply list_elem_of_lookup in Hx as [i Hi].
  apply list_elem_of_lookup in Hy as [j Hj].
  assert (i = j) as <-.
  { eapply (NoDup_lookup (f <$> l) i j (f x)); [done| |].
    - by rewrite list_lookup_fmap, Hi.
    - by rewrite list_lookup_fmap, Hj, Hf. }
  congruence.
Qed.

(** Rows with pairwise distinct dates have one sorted order, whatever the
    order they come in. *)
Lemma sort_values_perm_eq l l' :
  l ≡ₚ l' → NoDup (date <$> l) → sort_values l = sort_values l'.
Proof.
  intros Hperm Hnd.
  apply (strongly_sorted_perm_eq date_ordered);
    [apply sort_values_strongly_sorted..| |].
  - by rewrite !sort_values_perm.
  - intros x y Hx Hy Hxy Hyx. rewrite sort_values_perm in Hx, Hy.
    apply (NoDup_fmap_eq date l); [done..|]. by apply date_le_antisym.
Qed.

(** X7. When the labels of a game parse to pairwise distinct dates (at most
    one of them failing to parse), its cleaned series does not depend on
    the order of the rows in the input frame. *)
Theorem clean_ignores_row_order
    (to_datetime : string → option Z) (min_avg_players : float)
    (min_consecutive_months : Z) (df df' : list Observation)
    (name : string) :
  df ≡ₚ df' →
  NoDup ((λ o, to_datetime (month o)) <$> game_rows name df) →
  cleaned_rows name
    (clean_game_data to_datetime df' min_avg_players min_consecutive_months)
  = cleaned_rows name
      (clean_game_data to_datetime df min_avg_players
         min_consecutive_months).
Proof.
  intros Hperm Hnd. rewrite !cleaned_rows_game. unfold clean_one_game.
  replace (sorted_game_data to_datetime (game_rows name df'))
    with (sorted_game_data to_datetime (game_rows name df)); [done|].
  apply sort_values_perm_eq.
  - unfold game_rows. by rewrite Hperm.
  - by rewrite <- list_fmap_compose.
Qed.

Lemma clean_ignores_row_order_witness :
  cleaned_rows "Warframe"
    (clean_game_data month_year_to_datetime (reverse example_series) 500 2)
  = cleaned_rows "Warframe"
      (clean_game_data month_year_to_datetime example_series 500 2).
Proof.
  apply (clean_ignores_row_order month_year_to_datetime 500 2
           example_series (reverse example_series) "Warframe").
  - symmetry. apply reverse_Permutation.
  - eapply bool_decide_unpack. vm_compute. exact I.
Defined.

(** ** Looser and stricter parameters *)

(** X8. Cleaning with a lower threshold or a shorter run never cuts later:
    if every row at or above the stricter threshold is at or above the
    looser one and [1 <= months1 <= months2], then whenever the stricter
    parameters cut a series the looser ones cut it too, at an index that is
    not greater, and the stricter result is the looser result without some
    of its first rows. *)
Theorem looser_parameters_cut_no_later
    (to_datetime : string → option Z) (threshold1 threshold2 : float)
    (months1 months2 : Z) (df : list Observation) (name : string)
    (start2 : Z) :
  let game_data := sorted_game_data to_datetime (game_rows name df) in
  1 ≤ months1 ≤ months2 →
  (∀ r, r ∈ game_data →
        meets threshold2 r = true → meets threshold1 r = true) →
  find_meaningful_start threshold2 months2 game_data 0 0 = Some start2 →
  ∃ start1,
    find_meaningful_start threshold1 months1 game_data 0 0 = Some start1
    ∧ 0 ≤ start1 ≤ start2
    ∧ cleaned_rows name (clean_game_data to_datetime df threshold2 months2)
      = drop (Z.to_nat (start2 - start1))
          (cleaned_rows name
             (clean_game_data to_datetime df threshold1 months1)).
Proof.
  intros game_data Hm Hlooser Hscan2.
  destruct (scan_Some_shape threshold2 months2 ltac:(lia) _ _ Hscan2)
    as (front & run & rest & Hl & Hfront & Hrun & Hall & _ & _).
  set (window := take (Z.to_nat months1) run).
  assert (game_data = front ++ window ++ drop (Z.to_nat months1) run ++ rest)
    as Hl'.
  { rewrite Hl. unfold window. by rewrite (app_assoc (take _ _)), take_drop. }
  assert (length window = Z.to_nat months1) as Hwindow.
  { unfold window. rewrite length_take. lia. }
  assert (reaches threshold1 months1 game_data
            (length front + length window - 1) = true) as Hreach.
  { rewrite Hl' at 1. apply window_reaches; try lia.
    apply Forall_forall. intros r Hr. apply Hlooser.
    - rewrite Hl'. rewrite !elem_of_app. tauto.
    - rewrite Forall_forall in Hall. apply Hall.
      by apply (subseteq_take (Z.to_nat months1) run). }
  destruct (find_seq_exists (reaches threshold1 months1 game_data)
              (length game_data) 0 (length front + length window - 1))
    as (i1 & Hfirst & Hi1); [|done|].
  { rewrite Hl', !length_app. lia. }
  exists (Z.max 0 (Z.of_nat i1 - months1 + 1)).
  assert (find_meaningful_start threshold1 months1 game_data 0 0
          = Some (Z.max 0 (Z.of_nat i1 - months1 + 1))) as Hscan1.
  { rewrite scan_zero. unfold first_reach. by rewrite Hfirst. }
  split; [done|]. split; [lia|].
  rewrite !cleaned_rows_game. unfold clean_one_game. fold game_data.
  rewrite Hscan1, Hscan2, !iloc_from_nonneg by lia.
  rewrite drop_drop. f_equal. lia.
Qed.

Lemma looser_parameters_cut_no_later_witness :
  ∃ start1,
    find_meaningful_start 500 1
      (sorted_game_data month_year_to_datetime
         (game_rows "Steady" steady_series)) 0 0 = Some start1
    ∧ 0 ≤ start1 ≤ 1.
Proof.
  destruct (looser_parameters_cut_no_later month_year_to_datetime
              500 700 1 2 steady_series "Steady" 1)
    as (start1 & Hscan & Hle & _).
  - lia.
  - intros r Hr _. vm_compute in Hr.
    repeat (apply elem_of_cons in Hr as [->|Hr]; [reflexivity|]).
    by apply elem_of_nil in Hr.
  - vm_compute. reflexivity.
  - exists start1. auto.
Defined.

(** * Further properties of the month-label parser *)

(** ** Digits and spaces *)

Lemma digit_not_space (c : ascii) :
  Py.is_digit c = true → Py.isspace c = false.
Proof.
  intros Hd.
  destruct c as [[] [] [] [] [] [] [] []];
    try (vm_compute in Hd; discriminate Hd); reflexivity.
Qed.

Lemma all_digits_no_space (s : string) :
  all_digits s = true → Py.no_space s = true.
Proof.
  induction s as [|c s IH]; [done|]. simpl.
  intros [Hc Hs]%andb_true_iff.
  by rewrite (digit_not_space c Hc), IH.
Qed.

Lemma rstrip_no_space (s : string) : Py.no_space s = true → Py.rstrip s = s.
Proof.
  induction s as [|c s IH]; [done|]. simpl.
  intros [Hc Hs]%andb_true_iff. apply negb_true_iff in Hc.
  by rewrite Hc, andb_false_r, IH.
Qed.

Lemma strip_no_space (s : string) : Py.no_space s = true → Py.strip s = s.
Proof.
  intros Hs. unfold Py.strip.
  replace (Py.lstrip s) with s; [by apply rstrip_no_space|].
  destruct s as [|c s]; [done|]. simpl in *.
  apply andb_true_iff in Hs as [Hc _]. apply negb_true_iff in Hc.
  by rewrite Hc.
Qed.

Lemma int_digits_all_digits (s : string) : ∀ acc prev n,
  all_digits s = true → s ≠ "" ∨ prev = true →
  Py.int_digits s acc prev n
  = Some (decimal_from acc s, (n + String.length s)%nat).
Proof.
  induction s as [|c s IH]; intros acc prev n Hs Hne.
  - destruct Hne as [Hne| ->]; [done|]. simpl. do 2 f_equal. lia.
  - simpl in Hs. apply andb_true_iff in Hs as [Hc Hs].
    cbn [Py.int_digits]. rewrite Hc, IH by auto.
    cbn [decimal_from String.length]. do 2 f_equal. lia.
Qed.

(** [int] on a plain string of digits. *)
Lemma int_all_digits (s : string) :
  all_digits s = true → s ≠ "" →
  (String.length s ≤ Py.max_str_digits)%nat →
  Py.int s = Some (decimal s).
Proof.
  intros Hs Hne Hlen. unfold Py.int.
  rewrite strip_no_space by (by apply all_digits_no_space).
  destruct s as [|c r]; [done|].
  assert (Py.int_unsigned (String c r) = Some (decimal (String c r))) as Hu.
  { unfold Py.int_unsigned. rewrite int_digits_all_digits by auto.
    cbn [Nat.add]. by rewrite (proj2 (Nat.leb_le _ _) Hlen). }
  simpl in Hs. apply andb_true_iff in Hs as [Hc _].
  destruct c as [[] [] [] [] [] [] [] []];
    try (vm_compute in Hc; discriminate Hc); exact Hu.
Qed.

Lemma count_space_app (a b : string) :
  count_space (a +:+ b) = (count_space a + count_space b)%nat.
Proof.
  induction a as [|c a IH]; [done|].
  rewrite append_cons. cbn [count_space]. rewrite IH. lia.
Qed.

Lemma count_space_no_space (s : string) :
  Py.no_space s = true → count_space s = 0%nat.
Proof.
  induction s as [|c s IH]; [done|]. simpl.
  intros [Hc Hs]%andb_true_iff. apply negb_true_iff in Hc.
  by rewrite Hc, IH.
Qed.

Lemma prefix_append (p s : string) :
  String.prefix p s = true → ∃ t, s = p +:+ t.
Proof.
  revert s. induction p as [|c p IH]; intros s Hp; [by exists s|].
  destruct s as [|d s]; [done|]. rewrite prefix_cons in Hp.
  destruct (Ascii.ascii_dec c d) as [->|]; [|done].
  destruct (IH s Hp) as [t ->]. by exists t.
Qed.

Lemma contains_append (sub s : string) :
  Py.contains sub s = true → ∃ a b, s = a +:+ sub +:+ b.
Proof.
  induction s as [|c s IH]; cbn [Py.contains].
  - rewrite orb_false_r. intros [t ->]%prefix_append. by exists "", t.
  - intros [[t ->]%prefix_append|Hs]%orb_true_iff; [by exists "", t|].
    destruct (IH Hs) as (a & b & ->). by exists (String c a), b.
Qed.

(** A label with a single whitespace character cannot hold the marker of
    the rolling window, which has two. *)
Lemma two_words_not_rolling (w y : string) :
  Py.no_space w = true → Py.no_space y = true →
  Py.contains "Last 30 Days" (w +:+ " " +:+ y) = false.
Proof.
  intros Hw Hy.
  destruct (Py.contains _ _) eqn:Hc; [exfalso|done].
  apply contains_append in Hc as (a & b & Heq).
  apply (f_equal count_space) in Heq.
  rewrite !count_space_app in Heq.
  rewrite (count_space_no_space w), (count_space_no_space y) in Heq by done.
  change (count_space "Last 30 Days") with 2%nat in Heq.
  change (count_space " ") with 1%nat in Heq. lia.
Qed.

Lemma split_two_words (w y : string) :
  Py.no_space w = true → Py.no_space y = true → w ≠ "" → y ≠ "" →
  Py.split (w +:+ " " +:+ y) = [w; y].
Proof.
  intros Hw Hy Hnw Hny. unfold Py.split.
  rewrite split_from_word by done. change ("" +:+ w) with w.
  rewrite append_cons. cbn [Py.split_from].
  change (Py.isspace " ") with true. cbn iota.
  replace (Py.is_empty w) with false by (by destruct w).
  f_equal. change ("" +:+ y) with y.
  rewrite <- (append_empty_r y) at 1.
  rewrite split_from_word by done. change ("" +:+ y) with y.
  simpl. by destruct y.
Qed.

(** ** The dictionary of month names *)

Lemma month_mapping_entries (name : string) (m : Z) :
  month_mapping !! name = Some m →
  (name, m) ∈ [("January", 1); ("February", 2); ("March", 3); ("April", 4);
               ("May", 5); ("June", 6); ("July", 7); ("August", 8);
               ("September", 9); ("October", 10); ("November", 11);
               ("December", 12)].
Proof.
  unfold month_mapping. intros H.
  by apply elem_of_list_to_map_2 in H.
Qed.

Lemma parse_month_year_parts now_year now_month label first second rest year :
  Py.contains "Last 30 Days" label = false →
  Py.split label = first :: second :: rest →
  Py.int second = Some year →
  parse_month_year now_year now_month label
  = (Some year, Some (default 1 (month_mapping !! first))).
Proof.
  intros Hroll Hsplit Hint. unfold parse_month_year.
  rewrite Hroll, split_strip, Hsplit. cbn [length Nat.leb]. by rewrite Hint.
Qed.

(** X9. Every label made of one of the twelve month names, a space and a
    year written in decimal digits is parsed to that year and to the number
    of that month. *)
Theorem month_name_and_year_parse
    (now_year now_month : Z) (name year : string) (m : Z) :
  month_mapping !! name = Some m →
  all_digits year = true → year ≠ "" →
  (String.length year ≤ Py.max_str_digits)%nat →
  parse_month_year now_year now_month (name +:+ " " +:+ year)
  = (Some (decimal year), Some m).
Proof.
  intros Hname Hyear Hne Hlen.
  assert (Py.no_space name = true ∧ name ≠ "") as [Hspace Hnonempty].
  { apply month_mapping_entries in Hname.
    repeat (apply elem_of_cons in Hname as [[= -> _]|Hname]; [done|]).
    by apply elem_of_nil in Hname. }
  rewrite (parse_month_year_parts _ _ _ name year [] (decimal year)).
  - by rewrite Hname.
  - apply two_words_not_rolling; [done | by apply all_digits_no_space].
  - apply split_two_words; [done | by apply all_digits_no_space | done..].
  - by apply int_all_digits.
Qed.

Lemma month_name_and_year_parse_witness :
  parse_month_year 2026 11 "March 2013" = (Some 2013, Some 3).
Proof.
  apply (month_name_and_year_parse 2026 11 "March" "2013" 3);
    [vm_compute; reflexivity | reflexivity | discriminate | vm_compute; lia].
Defined.


(** X10. The two results of the parser are both missing or both present,
    which is what [dropna] on the two derived columns relies on; a month
    number that does not come from the clock is between 1 and 12. *)
Theorem parse_month_year_shape
    (now_year now_month : Z) (label : string) :
  parse_month_year now_year now_month label = (None, None)
  ∨ ∃ year month_num,
      parse_month_year now_year now_month label
      = (Some year, Some month_num)
      ∧ (Py.contains "Last 30 Days" label = true
         ∧ year = now_year ∧ month_num = now_month
         ∨ Py.contains "Last 30 Days" label = false
           ∧ 1 ≤ month_num ≤ 12).
Proof.
  unfold parse_month_year.
  destruct (Py.contains "Last 30 Days" label) eqn:Hroll.
  { right. exists now_year, now_month. auto. }
  destruct (Py.split (Py.strip label)) as [|first [|second rest]];
    cbn [length Nat.leb]; [by left..|].
  destruct (Py.int second) as [year|]; [|by left].
  right. eexists _, _. split; [done|]. right. split; [done|].
  destruct (month_mapping !! first) as [m|] eqn:Hm; simpl; [|lia].
  apply month_mapping_entries in Hm.
  repeat (apply elem_of_cons in Hm as [[= _ ->]|Hm]; [lia|]).
  by apply elem_of_nil in Hm.
Qed.

(** * Further properties of the Store Loader *)

(** ** The statements, one by one *)












(** ** The schema, created again *)










(** ** What the import stores *)

















(** * Properties of the script of the Store Loader *)

(** ** The file that is chosen *)

Lemma max_by_elem {A} (key : A → Z) (l : list A) : ∀ best,
  max_by key best l ∈ best :: l.
Proof.
  induction l as [|x l IH]; intros best; simpl.
  - apply elem_of_cons. by left.
  - specialize (IH (if key best <? key x then x else best)).
    apply elem_of_cons in IH as [->|IH].
    + destruct (key best <? key x); rewrite !elem_of_cons; auto.
    + rewrite !elem_of_cons. auto.
Qed.

Lemma max_by_greatest {A} (key : A → Z) (l : list A) : ∀ best x,
  x ∈ best :: l → key x ≤ key (max_by key best l).
Proof.
  induction l as [|y l IH]; intros best x Hx; simpl.
  - apply elem_of_cons in Hx as [->|Hx]; [lia|]. by apply elem_of_nil in Hx.
  - destruct (key best <? key y) eqn:Hlt.
    + apply Z.ltb_lt in Hlt.
      apply elem_of_cons in Hx as [->|Hx].
      * etrans; [|apply (IH y y), elem_of_cons; by left]. lia.
      * by apply IH.
    + apply Z.ltb_ge in Hlt.
      apply elem_of_cons in Hx as [->|Hx].
      * apply IH, elem_of_cons. by left.
      * apply elem_of_cons in Hx as [->|Hx].
        -- etrans; [exact Hlt|]. apply IH, elem_of_cons. by left.
        -- apply IH, elem_of_cons. by right.
Qed.

(** X16. The file the script converts is always one of the candidates it
    listed: the only candidate, the candidate whose number was typed, or a
    candidate that no other candidate is newer than. Whatever is typed that
    is not made of digits, a file is chosen. *)
Theorem choose_csv_file_among_candidates
    (csv_files : list string) (typed : string) (getmtime : string → Z) :
  (∀ csv_file,
     choose_csv_file csv_files typed getmtime = Some csv_file →
     csv_file ∈ csv_files
     ∧ (csv_files = [csv_file]
        ∨ (∃ n, Py.int (Py.strip typed) = Some n
                ∧ csv_files !! Z.to_nat (n - 1) = Some csv_file)
        ∨ ∀ other, other ∈ csv_files → getmtime other ≤ getmtime csv_file))
  ∧ (csv_files ≠ [] → isdigit (Py.strip typed) = false →
     ∃ csv_file, choose_csv_file csv_files typed getmtime = Some csv_file).
Proof.
  assert (∀ csv_file,
            match csv_files with
            | [] => None
            | f :: files => Some (max_by getmtime f files)
            end = Some csv_file →
            csv_file ∈ csv_files
            ∧ ∀ other, other ∈ csv_files →
                       getmtime other ≤ getmtime csv_file) as Hnewest.
  { intros csv_file. destruct csv_files as [|f files]; [done|].
    intros [= <-]. split; [apply max_by_elem|]. apply max_by_greatest. }
  split.
  - intros csv_file. unfold choose_csv_file.
    destruct csv_files as [|f [|g files]].
    + destruct (isdigit _); [|done].
      destruct (Py.int _) as [n|]; [|done].
      by destruct ((1 <=? n) && (n <=? Z.of_nat (length [])%nat)); [rewrite lookup_nil|].
    + intros [= <-]. split; [apply elem_of_cons; by left | by left].
    + set (csv_files := f :: g :: files) in *.
      destruct (isdigit _).
      * destruct (Py.int _) as [n|]; [|done].
        destruct ((1 <=? n) && (n <=? Z.of_nat (length csv_files))).
        -- intros Hlookup. split; [by eapply list_elem_of_lookup_2|].
           right. left. by exists n.
        -- intros Hnew. destruct (Hnewest _ Hnew). auto.
      * intros Hnew. destruct (Hnewest _ Hnew). auto.
  - intros Hne Hdigit. unfold choose_csv_file. rewrite Hdigit.
    destruct csv_files as [|f [|g files]]; [done|eauto..].
Qed.

Lemma choose_csv_file_among_candidates_witness :
  ∃ csv_file,
    choose_csv_file ["steam_top5.csv"; "steam_top100.csv"] "newest"
      (λ f, if String.eqb f "steam_top100.csv" then 20 else 10)
    = Some csv_file.
Proof.
  destruct (choose_csv_file_among_candidates
              ["steam_top5.csv"; "steam_top100.csv"] "newest"
              (λ f, if String.eqb f "steam_top100.csv" then 20 else 10))
    as [_ Hchosen].
  apply Hchosen; [discriminate | reflexivity].
Defined.

Lemma all_digits_isdigit (s : string) :
  all_digits s = true → all_isdigit s = true.
Proof.
  induction s as [|c s IH]; [done|]. simpl.
  intros [Hc Hs]%andb_true_iff. unfold isdigit_char. by rewrite Hc, IH.
Qed.

(** X17. With several candidates, typing the number of one of them (in
    decimal digits, spaces around it allowed) chooses the candidate listed
    under that number, whatever the modification times. *)
Theorem choose_csv_file_by_number
    (csv_files : list string) (typed : string) (getmtime : string → Z) :
  let choice := Py.strip typed in
  length csv_files ≠ 1%nat →
  all_digits choice = true → choice ≠ "" →
  (String.length choice ≤ Py.max_str_digits)%nat →
  1 ≤ decimal choice ≤ Z.of_nat (length csv_files) →
  choose_csv_file csv_files typed getmtime
  = csv_files !! Z.to_nat (decimal choice - 1)
  ∧ is_Some (csv_files !! Z.to_nat (decimal choice - 1)).
Proof.
  intros choice Hlen Hdigits Hne Hmax Hrange.
  split; [|apply lookup_lt_is_Some_2; lia].
  unfold choose_csv_file. fold choice.
  assert (isdigit choice = true) as ->.
  { unfold isdigit. rewrite all_digits_isdigit by done. by destruct choice. }
  rewrite int_all_digits by done.
  replace ((1 <=? decimal choice)
           && (decimal choice <=? Z.of_nat (length csv_files))) with true
    by (symmetry; apply andb_true_iff; split; apply Z.leb_le; lia).
  by destruct csv_files as [|f [|g files]].
Qed.

Lemma choose_csv_file_by_number_witness :
  choose_csv_file ["steam_top5.csv"; "steam_top100.csv"] " 2 " (λ _, 0)
  = Some "steam_top100.csv".
Proof.
  apply (choose_csv_file_by_number ["steam_top5.csv"; "steam_top100.csv"]
           " 2 " (λ _, 0));
    [discriminate | reflexivity | discriminate | vm_compute; lia
     | vm_compute; split; discriminate].
Defined.

(** ** The name of the database file *)

Lemma endswith_cons (c : ascii) (s suffix : string) :
  Py.endswith (String c s) suffix
  = String.eqb (String c s) suffix || Py.endswith s suffix.
Proof. reflexivity. Qed.

Lemma endswith_append (a s suffix : string) :
  Py.endswith s suffix = true → Py.endswith (a +:+ s) suffix = true.
Proof.
  intros Hs. induction a as [|c a IH]; [done|].
  rewrite append_cons, endswith_cons, IH. apply orb_true_r.
Qed.

Lemma endswith_csv_tail (t : string) :
  Py.endswith (".csv" +:+ t) ".csv" = true →
  t = "" ∨ Py.endswith t ".csv" = true.
Proof.
  destruct t as [|c t]; [by left|]. right.
  change (".csv" +:+ String c t)
    with (String "." (String "c" (String "s" (String "v" (String c t)))))
    in H.
  rewrite !endswith_cons in H.
  change (String.eqb (String "." (String "c" (String "s" (String "v"
            (String c t))))) ".csv")
    with (String.eqb (String c t) "") in H.
  by rewrite endswith_cons.
Qed.

Lemma replace_from_skip (old new : string) k c s :
  replace_from old new (S k) (String c s) = replace_from old new k s.
Proof. reflexivity. Qed.

Lemma replace_from_match (old new : string) c s :
  String.prefix old (String c s) = true →
  replace_from old new 0 (String c s)
  = new +:+ replace_from old new (String.length old - 1) s.
Proof. intros H. cbn [replace_from]. by rewrite H. Qed.

Lemma replace_from_no_match (old new : string) c s :
  String.prefix old (String c s) = false →
  replace_from old new 0 (String c s) = String c (replace_from old new 0 s).
Proof. intros H. cbn [replace_from]. by rewrite H. Qed.

Lemma prefix_csv (t : string) : String.prefix ".csv" (".csv" +:+ t) = true.
Proof.
  change (".csv" +:+ t)
    with (String "." (String "c" (String "s" (String "v" t)))).
  rewrite !prefix_cons.
  destruct (Ascii.ascii_dec "." "."); [|done].
  destruct (Ascii.ascii_dec "c" "c"); [|done].
  destruct (Ascii.ascii_dec "s" "s"); [|done].
  destruct (Ascii.ascii_dec "v" "v"); [|done].
  by destruct t.
Qed.

Lemma replace_from_csv (t : string) :
  replace_from ".csv" ".db" 0 (".csv" +:+ t)
  = ".db" +:+ replace_from ".csv" ".db" 0 t.
Proof.
  pose proof (prefix_csv t) as Hp.
  change (".csv" +:+ t)
    with (String "." (String "c" (String "s" (String "v" t)))) in *.
  rewrite (replace_from_match _ _ _ _ Hp).
  change (String.length ".csv" - 1)%nat with 3%nat.
  by rewrite !replace_from_skip.
Qed.

Lemma endswith_not_both (s : string) :
  Py.endswith s ".csv" = true → Py.endswith s ".db" = true → False.
Proof.
  induction s as [|c s IH]; [done|]. rewrite !endswith_cons.
  intros [Hcsv|Hcsv]%orb_true_iff [Hdb|Hdb]%orb_true_iff.
  - apply String.eqb_eq in Hcsv, Hdb. congruence.
  - apply String.eqb_eq in Hcsv. injection Hcsv as -> ->. done.
  - apply String.eqb_eq in Hdb. injection Hdb as -> ->. done.
  - by apply IH.
Qed.

Lemma replace_csv_endswith (n : nat) : ∀ s,
  (String.length s ≤ n)%nat →
  Py.endswith s ".csv" = true →
  Py.endswith (replace_from ".csv" ".db" 0 s) ".db" = true.
Proof.
  induction n as [|n IH]; intros s Hlen Hs.
  { destruct s; [done | simpl in Hlen; lia]. }
  destruct s as [|c s]; [done|].
  destruct (String.prefix ".csv" (String c s)) eqn:Hp.
  - apply prefix_append in Hp as [t Ht]. rewrite Ht in *.
    rewrite replace_from_csv.
    apply endswith_csv_tail in Hs as [->|Ht']; [done|].
    apply endswith_append, IH; [|done].
    change (String.length (".csv" +:+ t)) with (4 + String.length t)%nat
      in Hlen. lia.
  - rewrite (replace_from_no_match _ _ _ _ Hp).
    rewrite endswith_cons in Hs. apply orb_true_iff in Hs as [Hs|Hs].
    { apply String.eqb_eq in Hs. rewrite Hs in Hp. done. }
    rewrite endswith_cons, IH; [apply orb_true_r| |done].
    simpl in Hlen. lia.
Qed.

(** X18. For every candidate file, whose name ends with [.csv], the name of
    the database file ends with [.db] and differs from the name of the
    candidate: the import never opens its own input as the database. *)
Theorem db_file_differs_from_csv_file (csv_file : string) :
  Py.endswith csv_file ".csv" = true →
  Py.endswith (db_file_of csv_file) ".db" = true
  ∧ db_file_of csv_file ≠ csv_file.
Proof.
  intros Hcsv.
  assert (Py.endswith (db_file_of csv_file) ".db" = true) as Hdb
    by (by apply (replace_csv_endswith (String.length csv_file))).
  split; [done|]. intros Heq. rewrite Heq in Hdb.
  by apply (endswith_not_both csv_file).
Qed.

Lemma db_file_differs_from_csv_file_witness :
  db_file_of "steam.csv.old.csv" ≠ "steam.csv.old.csv".
Proof.
  apply (db_file_differs_from_csv_file "steam.csv.old.csv"). reflexivity.
Defined.

(** ** The candidates *)

(** X19. The search for the input files never hands an empty list to the
    rest of the script: it either stops the process with [SystemExit]
    after one message, when no file of the directory ends with [.csv] and
    has [steam] in its name in any case, or returns, without printing or
    changing anything, one or more names that are all such files of the
    directory. *)
Theorem find_csv_files_outcomes (w : world) :
  (∃ csv_files,
     find_csv_files w = (Returned csv_files, w)
     ∧ csv_files ≠ []
     ∧ ∀ f, f ∈ csv_files →
            is_Some (files w !! f)
            ∧ Py.endswith f ".csv" = true
            ∧ Py.contains "steam" (Py.lower f) = true)
  ∨ (find_csv_files w
     = (Raised SystemExit,
        {| files := files w; clock := clock w;
           stdout :=
             stdout w
             ++ ["❌ No Steam CSV files found in current directory"] |})
     ∧ ∀ f, is_Some (files w !! f) →
            Py.endswith f ".csv" && Py.contains "steam" (Py.lower f)
            = false).
Proof.
  unfold find_csv_files, os_listdir, bind. cbn beta iota.
  set (candidate := λ f : string,
         Py.endswith f ".csv" && Py.contains "steam" (Py.lower f)).
  assert (∀ f, f ∈ (map_to_list (files w)).*1 ↔ is_Some (files w !! f))
    as Hlist.
  { intros f. rewrite list_elem_of_fmap. split.
    - intros ([f' x] & -> & Hin). apply elem_of_map_to_list in Hin. eauto.
    - intros [x Hx]. exists (f, x). split; [done|].
      by apply elem_of_map_to_list. }
  destruct (List.filter candidate (map_to_list (files w)).*1)
    as [|f0 fs] eqn:Hfilter.
  - right. split; [reflexivity|]. intros f Hf. apply Hlist in Hf.
    destruct (candidate f) eqn:Hc; [|done].
    assert (In f (List.filter candidate (map_to_list (files w)).*1)) as Hin
      by (apply filter_In; split; [by apply list_elem_of_In | done]).
    by rewrite Hfilter in Hin.
  - left. exists (f0 :: fs). split; [reflexivity|]. split; [done|].
    intros f Hf. rewrite <- Hfilter in Hf.
    apply list_elem_of_In, filter_In in Hf as [Hin Hc].
    apply list_elem_of_In, Hlist in Hin.
    apply andb_true_iff in Hc as [? ?]. auto.
Qed.

Lemma find_csv_files_outcomes_witness :
  ∃ csv_files,
    find_csv_files
      {| files := {[ "steam_top5_with_names.csv" := CsvFile example_series ]};
         clock := (2026, 11); stdout := [] |}
    = (Returned csv_files,
       {| files := {[ "steam_top5_with_names.csv" := CsvFile example_series ]};
          clock := (2026, 11); stdout := [] |})
    ∧ csv_files ≠ [].
Proof.
  destruct (find_csv_files_outcomes
              {| files :=
                   {[ "steam_top5_with_names.csv" := CsvFile example_series ]};
                 clock := (2026, 11); stdout := [] |})
    as [(csv_files & Hrun & Hne & _)|[Hexit _]].
  - exists csv_files. auto.
  - vm_compute in Hexit. discriminate Hexit.
Defined.

(** * The Cleaner with a run length of zero or less *)

(** X20. With [min_consecutive_months] of zero or less the loop stops at
    the first observation at or above the threshold, at position [i], with
    the cut index [i - min_consecutive_months + 1], which is past [i]: that
    observation and all those before it are removed, and the loop runs to
    the end only when no observation is at or above the threshold. *)
Theorem clean_with_no_run_length
    (to_datetime : string → option Z) (min_avg_players : float)
    (min_consecutive_months : Z) (df : list Observation) (name : string) :
  let game_data := sorted_game_data to_datetime (game_rows name df) in
  min_consecutive_months ≤ 0 →
  match find_meaningful_start min_avg_players min_consecutive_months
          game_data 0 0 with
  | Some start =>
      ∃ (i : nat) row,
        game_data !! i = Some row
        ∧ meets min_avg_players row = true
        ∧ Forall (λ r, meets min_avg_players r = false) (take i game_data)
        ∧ start = Z.of_nat i - min_consecutive_months + 1
        ∧ cleaned_rows name
            (clean_game_data to_datetime df min_avg_players
               min_consecutive_months)
          = drop (S i + Z.to_nat (- min_consecutive_months)) game_data
  | None => Forall (λ r, meets min_avg_players r = false) game_data
  end.
Proof.
  intros game_data Hm.
  assert (∀ j, reaches min_avg_players min_consecutive_months game_data j
               = match (game_data !! j : option Row) with
                 | Some r => meets min_avg_players r
                 | None => false
                 end) as Hreaches.
  { intros j. unfold reaches. destruct (game_data !! j) as [r|]; [|done].
    pose proof (run_length_nonneg min_avg_players game_data j).
    replace (min_consecutive_months <=? run_length min_avg_players game_data j)
      with true by (symmetry; apply Z.leb_le; lia).
    apply andb_true_r. }
  destruct (find_meaningful_start _ _ game_data 0 0) as [start|] eqn:Hscan.
  - pose proof Hscan as Hscan'. rewrite scan_zero in Hscan'.
    destruct (first_reach _ _ game_data) as [i|] eqn:Hfirst; [|done].
    injection Hscan' as <-.
    apply first_reach_Some in Hfirst as (Hi & Hr & Hmin).
    rewrite Hreaches in Hr.
    destruct (game_data !! i) as [row|] eqn:Hrow; [|done].
    exists i, row. split; [done|]. split; [done|]. split; [|split; [lia|]].
    + apply Forall_forall. intros r Hin.
      apply list_elem_of_lookup in Hin as [j Hj].
      pose proof (lookup_lt_Some _ _ _ Hj) as Hlt.
      rewrite length_take in Hlt.
      rewrite lookup_take_lt in Hj by lia.
      specialize (Hmin j ltac:(lia)). rewrite Hreaches, Hj in Hmin. done.
    + rewrite cleaned_rows_game. unfold clean_one_game. fold game_data.
      rewrite Hscan, iloc_from_nonneg by lia. f_equal. lia.
  - rewrite scan_zero in Hscan.
    destruct (first_reach _ _ game_data) as [i|] eqn:Hfirst; [done|].
    apply Forall_forall. intros r Hin.
    apply list_elem_of_lookup in Hin as [j Hj].
    pose proof (first_reach_None _ _ _ Hfirst j) as Hnone.
    rewrite Hreaches, Hj in Hnone. done.
Qed.

Lemma clean_with_no_run_length_witness :
  cleaned_rows "Steady"
    (clean_game_data month_year_to_datetime steady_series 500 0)
  = drop 1 (sorted_game_data month_year_to_datetime
              (game_rows "Steady" steady_series)).
Proof.
  pose proof (clean_with_no_run_length month_year_to_datetime 500 0
                steady_series "Steady" ltac:(lia)) as H.
  cbv zeta in H.
  replace (find_meaningful_start 500 0
             (sorted_game_data month_year_to_datetime
                (game_rows "Steady" steady_series)) 0 0)
    with (Some 1) in H by (vm_compute; reflexivity).
  destruct H as (i & row & _ & _ & _ & Hstart & Hclean).
  rewrite Hclean. f_equal. lia.
Defined.
